(** * Overlanding Trip Planner: the client core, embedded and verified

    A shallow embedding of the React front end of the trip planner, and what
    holds of it. The definitions come first, one module per part of the
    front end:

    - [Js]       the fragment of JavaScript the sources rely on: truthiness,
                 [||], string [split]/[trim]/[join]/[toUpperCase], and
                 property lookup on an object literal;
    - [Geocode]  [buildShortName] and the debounced [geocodeCity] of the
                 Nominatim variant of [App], as a transition system over one
                 search field (its state hooks, its timer ref, the timeouts
                 and requests it has pending);
    - [Offline]  [geocodeCity] of the variant of [App] that searches a
                 built-in table of cities;
    - [Marker]   the icon table of [TripMap] and the two colour tables of
                 [App];
    - [TripMap]  [allPoints], [FitBounds] and [getRoutePositions];
    - [Planner]  [planTrip] and the selection state of [App], as a
                 transition system over the state hooks of the component;
    - [Rate]     the times at which a search field sends its requests;
    - [OfflineSelect] [selectStartLocation] and [selectDestLocation] of the
                 offline variant;
    - [Amenities] [formatAmenities] of [TripMap] and the amenity tags of
                 [App];
    - [Directions] the icon of a step of the directions;
    - [View]     the props [App] hands to [TripMap], the markers of the map,
                 the class names of the campsite cards, and the points of
                 interest the application shows.

    The theorems follow, in one section per module.

    JavaScript strings are modelled by [string], one [ascii] per code unit
    (so the model covers strings of code units below 256); numbers are
    binary64 floats, as in JavaScript; times are in milliseconds. *)

From Stdlib Require Import String Ascii List Arith Lia Bool PArith NArith ZArith Floats.
Import ListNotations.

Set Warnings "-inexact-float".
Open Scope string_scope.

(* ================================================================== *)
(** * The JavaScript fragment *)
(* ================================================================== *)

Module Js.

(** A string is truthy when it is not empty. *)
Definition truthy (s : string) : bool := negb (s =? "").

(** A property that may be missing: [None] is [undefined]. *)
Definition truthyO (x : option string) : bool :=
  match x with
  | Some s => truthy s
  | None => false
  end.

(** [x || y] on values that are strings or [undefined]. *)
Definition oror (x y : option string) : option string :=
  if truthyO x then x else y.

(** [x || 'lit']: the chain ends in a string literal, so the value is a
    string. *)
Definition ororString (x : option string) (lit : string) : string :=
  match x with
  | Some s => if truthy s then s else lit
  | None => lit
  end.

(** [s.split(c)] for a one-character separator. *)
Fixpoint split (c : ascii) (s : string) : list string :=
  match s with
  | EmptyString => [""]
  | String a rest =>
      if Ascii.eqb a c then "" :: split c rest
      else match split c rest with
           | tok :: toks => String a tok :: toks
           | [] => [String a ""]
           end
  end.

(** The white space [trim] removes, among code units below 256: TAB, LF,
    VT, FF, CR, SPACE and NBSP. *)
Definition isWhite (a : ascii) : bool :=
  let n := nat_of_ascii a in
  (((9 <=? n) && (n <=? 13)) || (n =? 32) || (n =? 160))%nat.

Fixpoint trimStart (s : string) : string :=
  match s with
  | String a rest => if isWhite a then trimStart rest else s
  | EmptyString => ""
  end.

Fixpoint trimEnd (s : string) : string :=
  match s with
  | String a rest =>
      let r := trimEnd rest in
      if isWhite a && (r =? "") then "" else String a r
  | EmptyString => ""
  end.

(** [s.trim()] *)
Definition trim (s : string) : string := trimEnd (trimStart s).

(** [l.slice(0, n)] *)
Definition slice0 {A} (n : nat) (l : list A) : list A := firstn n l.

(** [l.join(sep)] on an array of strings. *)
Definition join (sep : string) (l : list string) : string := String.concat sep l.

(** [s.toUpperCase()] on the letters a-z; other code units are kept (the
    country codes it is applied to are two ASCII letters). *)
Definition upper (a : ascii) : ascii :=
  let n := nat_of_ascii a in
  if ((97 <=? n) && (n <=? 122))%nat then ascii_of_nat (n - 32) else a.

Fixpoint toUpperCase (s : string) : string :=
  match s with
  | String a rest => String (upper a) (toUpperCase rest)
  | EmptyString => ""
  end.

(** ** Property lookup on an object literal

    [obj[key]] on an object written as a literal first looks among the
    literal's own properties and then along the prototype chain, which for
    a literal is [Object.prototype]. *)

Definition Object_prototype : list string :=
  [ "constructor"; "hasOwnProperty"; "isPrototypeOf"; "propertyIsEnumerable";
    "toLocaleString"; "toString"; "valueOf"; "__proto__";
    "__defineGetter__"; "__defineSetter__"; "__lookupGetter__";
    "__lookupSetter__" ].

(** The value of a lookup: an own property of the literal, a member
    inherited from [Object.prototype] (a function, or the prototype object
    itself for [__proto__]), or [undefined]. *)
Inductive value (A : Type) : Type :=
| Val (a : A)
| ProtoMember (key : string)
| Undefined.

Arguments Val {A} a.
Arguments ProtoMember {A} key.
Arguments Undefined {A}.

Fixpoint own {A} (obj : list (string * A)) (key : string) : option A :=
  match obj with
  | (k, v) :: rest => if k =? key then Some v else own rest key
  | [] => None
  end.

Definition hasKey (keys : list string) (key : string) : bool :=
  existsb (String.eqb key) keys.

(** [obj[key]] *)
Definition get {A} (obj : list (string * A)) (key : string) : value A :=
  match own obj key with
  | Some v => Val v
  | None => if hasKey Object_prototype key then ProtoMember key else Undefined
  end.

(** The property key an optional string is converted to: [undefined]
    becomes the key "undefined". *)
Definition toPropertyKey (x : option string) : string :=
  match x with
  | Some s => s
  | None => "undefined"
  end.

(** [v || d] on looked-up values, where [truthyA] tells which own values
    are truthy; functions and objects (the inherited members) always are. *)
Definition orElse {A} (truthyA : A -> bool) (v d : value A) : value A :=
  match v with
  | Val a => if truthyA a then v else d
  | ProtoMember _ => v
  | Undefined => d
  end.

(** [parseFloat] on the decimal texts of a table, each with the binary64
    value nearest to it; any other text is taken as not a number. The
    examples below parse coordinates with it. *)
Definition parseFloatOf (table : list (string * float)) (s : string) : float :=
  match own table s with
  | Some x => x
  | None => nan
  end.

(** [x.toString()] on the numbers of a table, each with its decimal text,
    for the examples. *)
Definition numberToStringOf (table : list (float * string)) (x : float) : string :=
  match find (fun e => PrimFloat.eqb (fst e) x) table with
  | Some e => snd e
  | None => "NaN"
  end.

End Js.

(* ================================================================== *)
(** * Geocoding: [buildShortName] and the debounced [geocodeCity] *)
(* ================================================================== *)

Module Geocode.
Import Js.

(** ** Data *)

(** The [address] object of a Nominatim result; a missing property is
    [None]. *)
Record Address : Type := {
  city : option string;
  town : option string;
  village : option string;
  hamlet : option string;
  county : option string;
  state : option string;
  country_code : option string
}.

(** [{}] *)
Definition emptyAddress : Address :=
  {| city := None; town := None; village := None; hamlet := None;
     county := None; state := None; country_code := None |}.

(** One record of the Nominatim response ([format=json], [addressdetails=1]);
    coordinates come as decimal text. *)
Module Result.
Record t : Type := {
  display_name : string;
  lat : string;
  lon : string;
  address : option Address
}.
End Result.

(** One entry of a suggestion list. *)
Module Suggestion.
Record t : Type := {
  name : string;
  lat : float;
  lon : float;
  shortName : string
}.
End Suggestion.

(** ** [buildShortName] *)

Definition buildShortName (result : Result.t) : string :=
  let addr := match Result.address result with
              | Some a => a
              | None => emptyAddress
              end in
  let city :=
    ororString (oror (oror (oror (oror (city addr) (town addr)) (village addr))
                             (hamlet addr)) (county addr)) "" in
  let state := ororString (state addr) "" in
  let country := match country_code addr with
                 | Some cc => if truthy cc then toUpperCase cc else ""
                 | None => ""
                 end in
  if truthy city && truthy state then city ++ ", " ++ state
  else if truthy city && truthy country then city ++ ", " ++ country
  else
    let parts := map trim (split "," (Result.display_name result)) in
    join ", " (slice0 2 parts).

(** *** What the specification says of the label

    [present x] is the value of a property that is there and not empty;
    [firstPresent] takes the first such value of a list of properties. *)
Definition present (x : option string) : option string :=
  match x with
  | Some s => if s =? "" then None else Some s
  | None => None
  end.

Fixpoint firstPresent (xs : list (option string)) : option string :=
  match xs with
  | x :: rest => match present x with
                 | Some s => Some s
                 | None => firstPresent rest
                 end
  | [] => None
  end.

(** The first two comma-separated tokens of the display name, joined. *)
Definition firstTwoTokens (display_name : string) : string :=
  match map trim (split "," display_name) with
  | [] => ""
  | [a] => a
  | a :: b :: _ => a ++ ", " ++ b
  end.

Definition shortName_spec (result : Result.t) : string :=
  let addr := match Result.address result with
              | Some a => a
              | None => emptyAddress
              end in
  let place := firstPresent [city addr; town addr; village addr;
                             hamlet addr; county addr] in
  match place, present (state addr), present (country_code addr) with
  | Some c, Some st, _ => c ++ ", " ++ st
  | Some c, None, Some cc => c ++ ", " ++ toUpperCase cc
  | _, _, _ => firstTwoTokens (Result.display_name result)
  end.

(** ** The state of one search field

    [geocodeCity] is handed the two setters and the timer ref of one field,
    so it acts on one field's part of the component state. To that part
    belong, besides the hooks, what the event loop holds for the field: the
    timeouts it has pending and the requests it has in flight. *)

(** A pending timeout: its id, the time it is due, and the query its
    callback closed over. *)
Record Timer : Type := {
  timer_id : positive;
  deadline : N;
  callback_query : string
}.

(** A request that has been sent and has not settled. *)
Record Request : Type := {
  request_id : nat;
  request_query : string
}.

Record Field : Type := {
  suggestions : list Suggestion.t;   (* useState([]) *)
  searching : bool;                  (* useState(false) *)
  timerRef : option positive;        (* useRef(null); a timer id is positive, hence truthy *)
  timers : list Timer;               (* timeouts pending, oldest first *)
  next_timer : positive;             (* the id setTimeout hands out next *)
  inflight : list Request;           (* requests awaiting their response *)
  calls : list string                (* every query sent to NOMINATIM_URL, oldest first *)
}.

Definition init : Field :=
  {| suggestions := []; searching := false; timerRef := None; timers := [];
     next_timer := 1%positive; inflight := []; calls := [] |}.

Definition setSuggestions (v : list Suggestion.t) (f : Field) : Field :=
  {| suggestions := v; searching := searching f; timerRef := timerRef f;
     timers := timers f; next_timer := next_timer f; inflight := inflight f;
     calls := calls f |}.

Definition setSearching (b : bool) (f : Field) : Field :=
  {| suggestions := suggestions f; searching := b; timerRef := timerRef f;
     timers := timers f; next_timer := next_timer f; inflight := inflight f;
     calls := calls f |}.

Definition withTimers (ts : list Timer) (f : Field) : Field :=
  {| suggestions := suggestions f; searching := searching f;
     timerRef := timerRef f; timers := ts; next_timer := next_timer f;
     inflight := inflight f; calls := calls f |}.

Definition withInflight (rs : list Request) (f : Field) : Field :=
  {| suggestions := suggestions f; searching := searching f;
     timerRef := timerRef f; timers := timers f; next_timer := next_timer f;
     inflight := rs; calls := calls f |}.

(** The timeouts left when the one with this id is dropped (it was cleared,
    or it has fired); dropping an id that is not pending changes nothing. *)
Definition dropTimer (id : positive) (ts : list Timer) : list Timer :=
  filter (fun t => negb (Pos.eqb (timer_id t) id)) ts.

(** [clearTimeout(id)] *)
Definition clearTimeout (id : positive) (f : Field) : Field :=
  withTimers (dropTimer id (timers f)) f.

(** The debounce interval, in milliseconds. *)
Definition DEBOUNCE : N := 400.

(** [timerRef.current = setTimeout(callback, ms)] at time [t], for the
    callback that closed over [query]. *)
Definition setTimeoutRef (t ms : N) (query : string) (f : Field) : Field :=
  let id := next_timer f in
  {| suggestions := suggestions f; searching := searching f;
     timerRef := Some id;
     timers := timers f ++ [{| timer_id := id; deadline := (t + ms)%N;
                               callback_query := query |}];
     next_timer := Pos.succ id; inflight := inflight f; calls := calls f |}.

(** ** [geocodeCity], called at time [t] *)
Definition geocodeCity (t : N) (query : string) (f : Field) : Field :=
  if (String.length query <? 3)%nat then setSuggestions [] f
  else
    let f := match timerRef f with
             | Some id => clearTimeout id f
             | None => f
             end in
    setTimeoutRef t DEBOUNCE query f.

(** *** The timeout callback

    The callback runs to its first [await] when the timer fires: it raises
    the searching flag and sends the request. *)
Definition callbackStart (query : string) (f : Field) : Field :=
  {| suggestions := suggestions f; searching := true; timerRef := timerRef f;
     timers := timers f; next_timer := next_timer f;
     inflight := inflight f ++ [{| request_id := List.length (calls f);
                                   request_query := query |}];
     calls := calls f ++ [query] |}.

(** How a request settles: [fetch] rejects, or the body does not parse to
    an array of results ([res.json()] rejects or [data.map] throws), or
    the results arrive. *)
Inductive response : Type :=
| NetworkError
| ParseFailure
| Json (data : list Result.t).

Definition failed (r : response) : bool :=
  match r with
  | Json _ => false
  | _ => true
  end.

Section WithParseFloat.

(** [parseFloat], on the decimal text of a coordinate. *)
Variable parseFloat : string -> float.

Definition toSuggestion (r : Result.t) : Suggestion.t :=
  {| Suggestion.name := Result.display_name r;
     Suggestion.lat := parseFloat (Result.lat r);
     Suggestion.lon := parseFloat (Result.lon r);
     Suggestion.shortName := buildShortName r |}.

(** The callback resumes when its request has settled: the [try] body on
    results, the [catch] body on a failure, and [finally] in both cases. *)
Definition callbackResume (r : response) (f : Field) : Field :=
  match r with
  | Json data => setSearching false (setSuggestions (map toSuggestion data) f)
  | NetworkError | ParseFailure => setSearching false (setSuggestions [] f)
  end.

(** ** Events of one field *)

Inductive event : Type :=
| Key (query : string)                  (* onChange of the input *)
| TimerFires (id : positive)            (* the event loop runs a due timeout *)
| Settles (rid : nat) (r : response)   (* a request settles *)
| Pick (i : nat).                       (* click on the i-th suggestion *)

Definition findTimer (id : positive) (f : Field) : option Timer :=
  find (fun t => Pos.eqb (timer_id t) id) (timers f).

Definition findRequest (rid : nat) (f : Field) : option Request :=
  find (fun r => request_id r =? rid)%nat (inflight f).

Definition dropRequest (rid : nat) (rs : list Request) : list Request :=
  filter (fun r => negb (request_id r =? rid)%nat) rs.

(** One event at time [t]; [None] when the event cannot happen in this
    state: a timeout fires only if it is pending and due, a request settles
    only if it is in flight, a suggestion is clicked only if it is shown. *)
Definition step (t : N) (f : Field) (e : event) : option Field :=
  match e with
  | Key query => Some (geocodeCity t query f)
  | TimerFires id =>
      match findTimer id f with
      | Some tm =>
          if (deadline tm <=? t)%N
          then Some (callbackStart (callback_query tm)
                       (withTimers (dropTimer id (timers f)) f))
          else None
      | None => None
      end
  | Settles rid r =>
      match findRequest rid f with
      | Some _ => Some (callbackResume r (withInflight (dropRequest rid (inflight f)) f))
      | None => None
      end
  | Pick i =>
      (* selectStartLocation, selectDestLocation: the part that acts on
         the field *)
      match nth_error (suggestions f) i with
      | Some _ => Some (setSuggestions [] f)
      | None => None
      end
  end.

(** A trace is a list of events with the times they happen at, which never
    decrease; [last] is the time of the event before. *)
Fixpoint run (last : N) (f : Field) (es : list (N * event)) : option Field :=
  match es with
  | [] => Some f
  | (t, e) :: rest =>
      if (last <=? t)%N then
        match step t f e with
        | Some f' => run t f' rest
        | None => None
        end
      else None
  end.

(** The time of the last event of a trace that starts at time [last]. *)
Fixpoint endTime (last : N) (es : list (N * event)) : N :=
  match es with
  | [] => last
  | (t, _) :: rest => endTime t rest
  end.

(** *** Bursts of keystrokes

    [lastKeystroke lk es] is the last keystroke of the trace [es], with its
    time, or [lk] when the trace has none. *)
Fixpoint lastKeystroke (lk : option (N * string)) (es : list (N * event))
  : option (N * string) :=
  match es with
  | [] => lk
  | (t, Key query) :: rest => lastKeystroke (Some (t, query)) rest
  | _ :: rest => lastKeystroke lk rest
  end.

(** [spaced lk es]: every keystroke of [es] comes less than one debounce
    interval after the keystroke before it ([lk] is the last keystroke
    before [es], if any). *)
Fixpoint spaced (lk : option (N * string)) (es : list (N * event)) : Prop :=
  match es with
  | [] => True
  | (t, Key query) :: rest =>
      match lk with
      | Some (k, _) => (t < k + DEBOUNCE)%N
      | None => True
      end /\ spaced (Some (t, query)) rest
  | _ :: rest => spaced lk rest
  end.

(** Every keystroke of the trace leaves a query of 3 characters or more. *)
Definition longQueries (es : list (N * event)) : Prop :=
  forall t query, In (t, Key query) es -> 3 <= String.length query.

(** The states a field can be in: those some trace leads to from the
    state at mount. *)
Definition reachable (f : Field) : Prop :=
  exists es, run 0 init es = Some f.

(** ** Invariants

    At most one timeout is pending, and it is the one whose id
    [timerRef.current] holds. *)
Definition tracked (f : Field) : Prop :=
  List.length (timers f) <= 1 /\
  forall tm, In tm (timers f) -> timerRef f = Some (timer_id tm).

(** What holds along a burst that started from a field with no timeout
    pending: before its first keystroke nothing has been sent; after a
    keystroke either the timeout of the last keystroke is pending and
    nothing has been sent, or that timeout has fired, one debounce interval
    or more after the last keystroke, and its query is the one request
    sent. [cs] are the queries sent since the burst began. *)
Definition burstInv (lk : option (N * string)) (last : N) (cs : list string)
    (f : Field) : Prop :=
  match lk with
  | None => timers f = [] /\ cs = []
  | Some (k, query) =>
      (cs = [] /\
       exists id, timers f = [{| timer_id := id; deadline := (k + DEBOUNCE)%N;
                                 callback_query := query |}] /\
                  timerRef f = Some id)
      \/ (cs = [query] /\ timers f = [] /\ (k + DEBOUNCE <= last)%N)
  end.

End WithParseFloat.

(** ** Traces of a field

    Two Nominatim results, and [parseFloat] on their coordinates. *)
Definition austin : Result.t :=
  {| Result.display_name := "Austin, Travis County, Texas, United States";
     Result.lat := "30.27"; Result.lon := "-97.74";
     Result.address := Some {| city := Some "Austin"; town := None;
       village := None; hamlet := None; county := Some "Travis County";
       state := Some "Texas"; country_code := Some "us" |} |}.

Definition denver : Result.t :=
  {| Result.display_name := "Denver, Colorado, United States";
     Result.lat := "39.74"; Result.lon := "-104.99";
     Result.address := Some {| city := Some "Denver"; town := None;
       village := None; hamlet := None; county := None;
       state := Some "Colorado"; country_code := Some "us" |} |}.

Definition parseCoordinate : string -> float :=
  parseFloatOf [ ("30.27", 30.27); ("-97.74", -97.74);
                 ("39.74", 39.74); ("-104.99", -104.99) ]%float.

(** The field after "aus" was typed at time 0 and its timeout has fired:
    one request is in flight. *)
Definition searchingAus : Field :=
  {| suggestions := []; searching := true; timerRef := Some 1%positive;
     timers := []; next_timer := 2%positive;
     inflight := [{| request_id := 0; request_query := "aus" |}];
     calls := ["aus"] |}.

(** "aus" is typed and sent, "denv" is typed and sent before the response
    to "aus" is back, and the response to "denv" arrives before the response
    to "aus"; and the field after that trace. *)
Definition crossingTrace : list (N * event) :=
  [ (0%N, Key "aus"); (400%N, TimerFires 1%positive);
    (450%N, Key "denv"); (850%N, TimerFires 2%positive);
    (900%N, Settles 1 (Json [denver]));
    (1500%N, Settles 0 (Json [austin])) ].

Definition afterCrossing : Field :=
  {| suggestions := map (toSuggestion parseCoordinate) [austin];
     searching := false; timerRef := Some 2%positive;
     timers := []; next_timer := 3%positive;
     inflight := []; calls := ["aus"; "denv"] |}.

(** Three keystrokes 300 ms apart, the second one leaving a query of 2
    characters, with the timeouts firing when they are due; and the field
    after that trace. *)
Definition burstWithShortQuery : list (N * event) :=
  [ (0%N, Key "aus"); (300%N, Key "au"); (400%N, TimerFires 1%positive);
    (600%N, Key "aus"); (1000%N, TimerFires 2%positive) ].

Definition afterBurstWithShortQuery : Field :=
  {| suggestions := []; searching := true; timerRef := Some 2%positive;
     timers := []; next_timer := 3%positive;
     inflight := [ {| request_id := 0; request_query := "aus" |};
                   {| request_id := 1; request_query := "aus" |} ];
     calls := ["aus"; "aus"] |}.

(** A burst of keystrokes of 3 characters or more, 150 ms apart, and the
    one request it ends in. *)
Definition burstOfLongQueries : list (N * event) :=
  [ (0%N, Key "aus"); (150%N, Key "aust"); (300%N, Key "austi");
    (700%N, TimerFires 3%positive) ].

Definition afterBurstOfLongQueries : Field :=
  {| suggestions := []; searching := true; timerRef := Some 3%positive;
     timers := []; next_timer := 4%positive;
     inflight := [{| request_id := 0; request_query := "austi" |}];
     calls := ["austi"] |}.

End Geocode.

(* ================================================================== *)
(** * The offline variant of the search *)
(* ================================================================== *)

(** The variant of [App] that searches a built-in table of cities instead
    of calling Nominatim: no timer, no request. *)
Module Offline.
Import Js.

Record City : Type := {
  name : string;
  lat : float;
  lon : float
}.

Definition cityDatabase : list City :=
  [
    {| name := "Austin, TX"; lat := 30.27; lon := (-97.74) |};
    {| name := "Denver, CO"; lat := 39.74; lon := (-104.99) |};
    {| name := "Moab, UT"; lat := 38.57; lon := (-109.55) |};
    {| name := "Big Bend National Park, TX"; lat := 29.25; lon := (-103.25) |};
    {| name := "Sedona, AZ"; lat := 34.87; lon := (-111.76) |};
    {| name := "Flagstaff, AZ"; lat := 35.20; lon := (-111.65) |};
    {| name := "Santa Fe, NM"; lat := 35.69; lon := (-105.94) |};
    {| name := "Albuquerque, NM"; lat := 35.08; lon := (-106.65) |};
    {| name := "Phoenix, AZ"; lat := 33.45; lon := (-112.07) |};
    {| name := "Tucson, AZ"; lat := 32.22; lon := (-110.93) |};
    {| name := "Las Vegas, NV"; lat := 36.17; lon := (-115.14) |};
    {| name := "Salt Lake City, UT"; lat := 40.76; lon := (-111.89) |};
    {| name := "Colorado Springs, CO"; lat := 38.83; lon := (-104.82) |};
    {| name := "Durango, CO"; lat := 37.28; lon := (-107.88) |};
    {| name := "Taos, NM"; lat := 36.41; lon := (-105.57) |};
    {| name := "Carlsbad, NM"; lat := 32.42; lon := (-104.23) |};
    {| name := "El Paso, TX"; lat := 31.76; lon := (-106.49) |};
    {| name := "Houston, TX"; lat := 29.76; lon := (-95.37) |};
    {| name := "Dallas, TX"; lat := 32.78; lon := (-96.80) |};
    {| name := "San Antonio, TX"; lat := 29.42; lon := (-98.49) |};
    {| name := "Fort Worth, TX"; lat := 32.75; lon := (-97.33) |};
    {| name := "Oklahoma City, OK"; lat := 35.47; lon := (-97.52) |};
    {| name := "Kansas City, MO"; lat := 39.10; lon := (-94.58) |};
    {| name := "Amarillo, TX"; lat := 35.22; lon := (-101.83) |};
    {| name := "Lubbock, TX"; lat := 33.58; lon := (-101.85) |};
    {| name := "Midland, TX"; lat := 31.99; lon := (-102.08) |};
    {| name := "Marfa, TX"; lat := 30.31; lon := (-104.02) |};
    {| name := "Terlingua, TX"; lat := 29.32; lon := (-103.61) |};
    {| name := "Joshua Tree, CA"; lat := 34.13; lon := (-116.31) |};
    {| name := "Death Valley, CA"; lat := 36.51; lon := (-117.08) |};
    {| name := "Grand Canyon, AZ"; lat := 36.05; lon := (-112.14) |};
    {| name := "Zion National Park, UT"; lat := 37.30; lon := (-113.03) |};
    {| name := "Bryce Canyon, UT"; lat := 37.59; lon := (-112.19) |};
    {| name := "Arches National Park, UT"; lat := 38.73; lon := (-109.59) |};
    {| name := "Canyonlands, UT"; lat := 38.33; lon := (-109.88) |};
    {| name := "Mesa Verde, CO"; lat := 37.18; lon := (-108.49) |};
    {| name := "Black Canyon, CO"; lat := 38.58; lon := (-107.72) |};
    {| name := "Great Sand Dunes, CO"; lat := 37.73; lon := (-105.51) |};
    {| name := "Rocky Mountain National Park, CO"; lat := 40.34; lon := (-105.68) |};
    {| name := "Yellowstone, WY"; lat := 44.43; lon := (-110.59) |};
    {| name := "Jackson Hole, WY"; lat := 43.48; lon := (-110.76) |}
  ]%float.

(** [s.toLowerCase()] on the letters A-Z; other code units are kept. *)
Definition lower (a : ascii) : ascii :=
  let n := nat_of_ascii a in
  if ((65 <=? n) && (n <=? 90))%nat then ascii_of_nat (n + 32) else a.

Fixpoint toLowerCase (s : string) : string :=
  match s with
  | String a rest => String (lower a) (toLowerCase rest)
  | EmptyString => ""
  end.

(** [s.includes(sub)] *)
Fixpoint includes (s sub : string) : bool :=
  String.prefix sub s ||
  match s with
  | String _ rest => includes rest sub
  | EmptyString => false
  end.

(** The two hooks [geocodeCity] is handed the setters of. *)
Record Field : Type := {
  suggestions : list City;
  searching : bool
}.

Definition geocodeCity (query : string) (f : Field) : Field :=
  if (String.length query <? 2)%nat
  then {| suggestions := []; searching := searching f |}
  else
    let matches :=
      slice0 5 (filter (fun city => includes (toLowerCase (name city))
                                             (toLowerCase query))
                       cityDatabase) in
    {| suggestions := matches; searching := false |}.

End Offline.

(* ================================================================== *)
(** * The trip plan, as the planning service returns it *)
(* ================================================================== *)

(** A campsite; of its properties, those the map and the selection read.
    [type], [cell_service] and [difficulty] may be missing. *)
Module Site.
Record t : Type := {
  id : string;
  name : string;
  type : option string;
  lat : float;
  lon : float;
  cell_service : option string;
  difficulty : option string
}.
End Site.

Record Segment : Type := {
  day : nat;
  suggested_campsite : option Site.t
}.

(** [route_geometry] is a list of [[lon, lat]] pairs, the order of the
    routing service. *)
Record TripPlan : Type := {
  segments : list Segment;
  nearby_campsites : option (list Site.t);
  route_geometry : option (list (float * float))
}.

(* ================================================================== *)
(** * Marker classification *)
(* ================================================================== *)

Module Marker.
Import Js.

Record Icon : Type := {
  iconUrl : string;
  shadowUrl : string;
  iconSize : nat * nat;
  iconAnchor : nat * nat;
  popupAnchor : Z * Z;
  shadowSize : nat * nat
}.

Definition createIcon (color : string) : Icon :=
  {| iconUrl := "https://raw.githubusercontent.com/pointhi/leaflet-color-markers/master/img/marker-icon-2x-"
                ++ color ++ ".png";
     shadowUrl := "https://cdnjs.cloudflare.com/ajax/libs/leaflet/1.9.4/images/marker-shadow.png";
     iconSize := (25, 41);
     iconAnchor := (12, 41);
     popupAnchor := (1, -34)%Z;
     shadowSize := (41, 41) |}.

Definition icons : list (string * Icon) :=
  [ ("start", createIcon "green");
    ("end", createIcon "red");
    ("dispersed", createIcon "orange");
    ("campground", createIcon "blue");
    ("rv_park", createIcon "violet");
    ("default", createIcon "grey") ].

(** [icons[type] || icons.default]; an icon is an object, hence truthy. *)
Definition getCampsiteIcon (type : option string) : value Icon :=
  orElse (fun _ => true) (get icons (toPropertyKey type)) (get icons "default").

Definition cellServiceColors : list (string * string) :=
  [ ("excellent", "#22c55e"); ("good", "#84cc16");
    ("weak", "#eab308"); ("none", "#ef4444") ].

(** [colors[service] || '#6b7280'] *)
Definition getCellServiceColor (service : option string) : value string :=
  orElse truthy (get cellServiceColors (toPropertyKey service)) (Val "#6b7280").

Definition difficultyColors : list (string * string) :=
  [ ("easy", "#22c55e"); ("moderate", "#eab308"); ("difficult", "#ef4444") ].

(** [colors[diff] || '#6b7280'] *)
Definition getDifficultyColor (diff : option string) : value string :=
  orElse truthy (get difficultyColors (toPropertyKey diff)) (Val "#6b7280").

(** The keys of a table. *)
Definition keys {A} (obj : list (string * A)) : list string := map fst obj.

End Marker.

(* ================================================================== *)
(** * The map: bounds and route *)
(* ================================================================== *)

Module TripMap.

(** A position of the map: [[lat, lon]]. *)
Definition LatLng : Type := (float * float)%type.

(** The props of the component; the four coordinates are the text of the
    input fields. *)
Record Props : Type := {
  startLat : string;
  startLon : string;
  destLat : string;
  destLon : string;
  tripPlan : option TripPlan;
  selectedCampsite : option Site.t
}.

(** What [FitBounds] asks of the map: [map.fitBounds(bounds, { padding })]. *)
Record FitBoundsCall : Type := {
  bounds : list LatLng;
  padding : nat * nat
}.

(** The effect of [FitBounds]: [if (bounds && bounds.length > 0)
    map.fitBounds(bounds, { padding: [50, 50] })]. [None]: the map is not
    called. *)
Definition FitBounds (bounds : option (list LatLng)) : option FitBoundsCall :=
  match bounds with
  | Some b => if (0 <? List.length b)%nat
              then Some {| bounds := b; padding := (50, 50) |}
              else None
  | None => None
  end.

Section WithParseFloat.

Variable parseFloat : string -> float.

Definition start (p : Props) : LatLng :=
  (parseFloat (startLat p), parseFloat (startLon p)).

Definition dest (p : Props) : LatLng :=
  (parseFloat (destLat p), parseFloat (destLon p)).

(** [allPoints]: start and destination, then [[site.lat, site.lon]] of
    every site of [tripPlan?.nearby_campsites]. *)
Definition allPoints (p : Props) : list LatLng :=
  [start p; dest p] ++
  match tripPlan p with
  | Some plan =>
      match nearby_campsites plan with
      | Some sites => map (fun site => (Site.lat site, Site.lon site)) sites
      | None => []
      end
  | None => []
  end.

(** [getRoutePositions] *)
Definition getRoutePositions (p : Props) : list LatLng :=
  match tripPlan p with
  | Some plan =>
      match route_geometry plan with
      | Some geometry =>
          if (0 <? List.length geometry)%nat
          then map (fun coord => (snd coord, fst coord)) geometry
          else [start p; dest p]
      | None => [start p; dest p]
      end
  | None => [start p; dest p]
  end.

(** *** What the specification speaks of *)

(** The route geometry supplied: that of the plan, empty when there is no
    plan or the plan has none. *)
Definition geometryOf (p : Props) : list (float * float) :=
  match tripPlan p with
  | Some plan => match route_geometry plan with
                 | Some geometry => geometry
                 | None => []
                 end
  | None => []
  end.

(** The axis swap, from [(lon, lat)] to [(lat, lon)]. *)
Definition toRenderOrder (coord : float * float) : LatLng :=
  let '(lon, lat) := coord in (lat, lon).

(** [tripPlan?.nearby_campsites]: the nearby campsites of the plan, none
    when the plan or the list is missing. *)
Definition nearbySites (p : Props) : list Site.t :=
  match tripPlan p with
  | Some plan => match nearby_campsites plan with
                 | Some sites => sites
                 | None => []
                 end
  | None => []
  end.

Definition position (site : Site.t) : LatLng := (Site.lat site, Site.lon site).

(** A list of positions has no extent when all its positions are the same. *)
Definition zeroExtent (b : list LatLng) : Prop :=
  forall x y, In x b -> In y b -> x = y.

End WithParseFloat.

(** ** The examples of the specification

    [parseFloat] on the coordinates of the examples, the props for a trip
    from Austin to Denver, and a plan with a given route geometry. *)
Definition parseCoordinate : string -> float :=
  Js.parseFloatOf [ ("30.27", 30.27); ("-97.74", -97.74);
                    ("39.74", 39.74); ("-104.99", -104.99) ]%float.

Definition austinToDenver (plan : option TripPlan) : Props :=
  {| startLat := "30.27"; startLon := "-97.74";
     destLat := "39.74"; destLon := "-104.99";
     tripPlan := plan; selectedCampsite := None |}.

Definition planWithGeometry (geometry : list (float * float)) : TripPlan :=
  {| segments := []; nearby_campsites := Some [];
     route_geometry := Some geometry |}.

(** Start and destination at the same place, and no plan. *)
Definition samePlace : Props :=
  {| startLat := "30.27"; startLon := "-97.74";
     destLat := "30.27"; destLon := "-97.74";
     tripPlan := None; selectedCampsite := None |}.

End TripMap.

(* ================================================================== *)
(** * The application: planning and selection *)
(* ================================================================== *)

Module Planner.
Import Js.

(** The two search fields. *)
Inductive which : Type := StartField | DestField.

(** The state hooks of [App]. Each search field carries its suggestion
    list, its searching flag and its timer ref, and what is pending for
    it. *)
Record App : Type := {
  startLat : string;
  startLon : string;
  destLat : string;
  destLon : string;
  startCity : string;
  destCity : string;
  startSearch : Geocode.Field;
  destSearch : Geocode.Field;
  maxDetour : string;
  dailyHours : string;
  tripPlan : option TripPlan;
  loading : bool;
  error : option string;
  selectedCampsite : option Site.t
}.

Definition init : App :=
  {| startLat := "30.27"; startLon := "-97.74";
     destLat := "39.74"; destLon := "-104.99";
     startCity := "Austin, TX"; destCity := "Denver, CO";
     startSearch := Geocode.init; destSearch := Geocode.init;
     maxDetour := "25"; dailyHours := "8";
     tripPlan := None; loading := false; error := None;
     selectedCampsite := None |}.

Definition search (w : which) (a : App) : Geocode.Field :=
  match w with
  | StartField => startSearch a
  | DestField => destSearch a
  end.

Definition withSearch (w : which) (fld : Geocode.Field) (a : App) : App :=
  {| startLat := startLat a; startLon := startLon a;
     destLat := destLat a; destLon := destLon a;
     startCity := startCity a; destCity := destCity a;
     startSearch := match w with StartField => fld | DestField => startSearch a end;
     destSearch := match w with StartField => destSearch a | DestField => fld end;
     maxDetour := maxDetour a; dailyHours := dailyHours a;
     tripPlan := tripPlan a; loading := loading a; error := error a;
     selectedCampsite := selectedCampsite a |}.

(** [setStartCity], [setDestCity] *)
Definition setCity (w : which) (v : string) (a : App) : App :=
  {| startLat := startLat a; startLon := startLon a;
     destLat := destLat a; destLon := destLon a;
     startCity := match w with StartField => v | DestField => startCity a end;
     destCity := match w with StartField => destCity a | DestField => v end;
     startSearch := startSearch a; destSearch := destSearch a;
     maxDetour := maxDetour a; dailyHours := dailyHours a;
     tripPlan := tripPlan a; loading := loading a; error := error a;
     selectedCampsite := selectedCampsite a |}.

(** [setStartLat] and [setStartLon], or [setDestLat] and [setDestLon] *)
Definition setLatLon (w : which) (la lo : string) (a : App) : App :=
  {| startLat := match w with StartField => la | DestField => startLat a end;
     startLon := match w with StartField => lo | DestField => startLon a end;
     destLat := match w with StartField => destLat a | DestField => la end;
     destLon := match w with StartField => destLon a | DestField => lo end;
     startCity := startCity a; destCity := destCity a;
     startSearch := startSearch a; destSearch := destSearch a;
     maxDetour := maxDetour a; dailyHours := dailyHours a;
     tripPlan := tripPlan a; loading := loading a; error := error a;
     selectedCampsite := selectedCampsite a |}.

Definition setMaxDetour (v : string) (a : App) : App :=
  {| startLat := startLat a; startLon := startLon a;
     destLat := destLat a; destLon := destLon a;
     startCity := startCity a; destCity := destCity a;
     startSearch := startSearch a; destSearch := destSearch a;
     maxDetour := v; dailyHours := dailyHours a;
     tripPlan := tripPlan a; loading := loading a; error := error a;
     selectedCampsite := selectedCampsite a |}.

Definition setDailyHours (v : string) (a : App) : App :=
  {| startLat := startLat a; startLon := startLon a;
     destLat := destLat a; destLon := destLon a;
     startCity := startCity a; destCity := destCity a;
     startSearch := startSearch a; destSearch := destSearch a;
     maxDetour := maxDetour a; dailyHours := v;
     tripPlan := tripPlan a; loading := loading a; error := error a;
     selectedCampsite := selectedCampsite a |}.

Definition setTripPlan (v : option TripPlan) (a : App) : App :=
  {| startLat := startLat a; startLon := startLon a;
     destLat := destLat a; destLon := destLon a;
     startCity := startCity a; destCity := destCity a;
     startSearch := startSearch a; destSearch := destSearch a;
     maxDetour := maxDetour a; dailyHours := dailyHours a;
     tripPlan := v; loading := loading a; error := error a;
     selectedCampsite := selectedCampsite a |}.

Definition setLoading (v : bool) (a : App) : App :=
  {| startLat := startLat a; startLon := startLon a;
     destLat := destLat a; destLon := destLon a;
     startCity := startCity a; destCity := destCity a;
     startSearch := startSearch a; destSearch := destSearch a;
     maxDetour := maxDetour a; dailyHours := dailyHours a;
     tripPlan := tripPlan a; loading := v; error := error a;
     selectedCampsite := selectedCampsite a |}.

Definition setError (v : option string) (a : App) : App :=
  {| startLat := startLat a; startLon := startLon a;
     destLat := destLat a; destLon := destLon a;
     startCity := startCity a; destCity := destCity a;
     startSearch := startSearch a; destSearch := destSearch a;
     maxDetour := maxDetour a; dailyHours := dailyHours a;
     tripPlan := tripPlan a; loading := loading a; error := v;
     selectedCampsite := selectedCampsite a |}.

Definition setSelectedCampsite (v : option Site.t) (a : App) : App :=
  {| startLat := startLat a; startLon := startLon a;
     destLat := destLat a; destLon := destLon a;
     startCity := startCity a; destCity := destCity a;
     startSearch := startSearch a; destSearch := destSearch a;
     maxDetour := maxDetour a; dailyHours := dailyHours a;
     tripPlan := tripPlan a; loading := loading a; error := error a;
     selectedCampsite := v |}.

(** ** [planTrip]

    Up to its [await]: the loading flag is raised, the error and the
    selection are reset, and the request is sent. *)
Definition planTripStart (a : App) : App :=
  setSelectedCampsite None (setError None (setLoading true a)).

(** How the plan request settles: with a plan, with a response that is not
    ok, or with [fetch] or [response.json()] rejecting with a message. *)
Inductive planResponse : Type :=
| PlanOk (data : TripPlan)
| PlanNotOk
| PlanRejected (message : string).

(** After the [await]: the plan is stored, or the error message is; the
    loading flag is lowered in both cases. *)
Definition planTripResume (r : planResponse) (a : App) : App :=
  setLoading false
    match r with
    | PlanOk data => setTripPlan (Some data) a
    | PlanNotOk => setError (Some "Failed to plan trip") a
    | PlanRejected message => setError (Some message) a
    end.

(** [handleCampsiteSelect] *)
Definition handleCampsiteSelect (site : Site.t) (a : App) : App :=
  setSelectedCampsite (Some site) a.

(** The sites of a plan that can be clicked, in the page and on the map:
    the suggested campsite of each segment, then the nearby campsites. *)
Definition displayedSites (plan : TripPlan) : list Site.t :=
  flat_map (fun seg => match suggested_campsite seg with
                       | Some site => [site]
                       | None => []
                       end) (segments plan)
  ++ match nearby_campsites plan with
     | Some sites => sites
     | None => []
     end.

(** ** Events of the application *)
Inductive event : Type :=
| Search (w : which) (e : Geocode.event)  (* what happens to a search field *)
| EditMaxDetour (v : string)
| EditDailyHours (v : string)
| ClickPlan                               (* the Plan Trip button *)
| PlanSettles (r : planResponse)          (* the plan request settles *)
| ClickSite (i : nat)                     (* the marker or the card of a displayed site *)
| ClearSelection.                         (* the Clear Selection button *)

Section WithNumbers.

Variable parseFloat : string -> float.

(** [x.toString()] on a number. *)
Variable numberToString : float -> string.

(** [selectStartLocation], [selectDestLocation], but for the suggestion
    list, which the step of the field empties. *)
Definition selectLocation (w : which) (s : Geocode.Suggestion.t) (a : App) : App :=
  let label := if truthy (Geocode.Suggestion.shortName s)
               then Geocode.Suggestion.shortName s
               else Geocode.Suggestion.name s in
  setCity w label
    (setLatLon w (numberToString (Geocode.Suggestion.lat s))
                 (numberToString (Geocode.Suggestion.lon s)) a).

(** One event at time [t]. The Plan Trip button is disabled while loading,
    so one plan request is in flight at most, and it is in flight exactly
    while [loading] holds; the Clear Selection button is there only while
    a site is selected. *)
Definition step (t : N) (a : App) (e : event) : option App :=
  match e with
  | Search w ge =>
      match Geocode.step parseFloat t (search w a) ge with
      | Some fld =>
          let a' := withSearch w fld a in
          match ge with
          | Geocode.Key query => Some (setCity w query a')
          | Geocode.Pick i =>
              match nth_error (Geocode.suggestions (search w a)) i with
              | Some s => Some (selectLocation w s a')
              | None => None
              end
          | _ => Some a'
          end
      | None => None
      end
  | EditMaxDetour v => Some (setMaxDetour v a)
  | EditDailyHours v => Some (setDailyHours v a)
  | ClickPlan => if loading a then None else Some (planTripStart a)
  | PlanSettles r => if loading a then Some (planTripResume r a) else None
  | ClickSite i =>
      match tripPlan a with
      | Some plan =>
          match nth_error (displayedSites plan) i with
          | Some site => Some (handleCampsiteSelect site a)
          | None => None
          end
      | None => None
      end
  | ClearSelection =>
      match selectedCampsite a with
      | Some _ => Some (setSelectedCampsite None a)
      | None => None
      end
  end.

Fixpoint run (last : N) (a : App) (es : list (N * event)) : option App :=
  match es with
  | [] => Some a
  | (t, e) :: rest =>
      if (last <=? t)%N then
        match step t a e with
        | Some a' => run t a' rest
        | None => None
        end
      else None
  end.

Fixpoint endTime (last : N) (es : list (N * event)) : N :=
  match es with
  | [] => last
  | (t, _) :: rest => endTime t rest
  end.

(** No site is clicked along the trace. *)
Definition noSiteClicked (es : list (N * event)) : Prop :=
  forall t i, ~ In (t, ClickSite i) es.

(** The ids of the sites of a plan. *)
Definition siteIds (plan : TripPlan) : list string :=
  map Site.id (displayedSites plan).

(** The message a failed plan request leaves. *)
Definition failureMessage (r : planResponse) : option string :=
  match r with
  | PlanOk _ => None
  | PlanNotOk => Some "Failed to plan trip"
  | PlanRejected message => Some message
  end.

Definition other (w : which) : which :=
  match w with
  | StartField => DestField
  | DestField => StartField
  end.

End WithNumbers.

(** ** Traces of the application

    [parseFloat] and [toString] on the coordinates of the examples. *)
Definition parseCoordinate : string -> float := Geocode.parseCoordinate.

Definition showCoordinate : float -> string :=
  numberToStringOf [ (30.27, "30.27"); (-97.74, "-97.74");
                     (39.74, "39.74"); (-104.99, "-104.99") ]%float.

(** The start field while the request for "aus" is in flight. *)
Definition searchingAus : App :=
  withSearch StartField Geocode.searchingAus (setCity StartField "aus" init).

(** Two plans, each with one campsite of its own. *)
Definition pineFlat : Site.t :=
  {| Site.id := "osm-1001"; Site.name := "Pine Flat";
     Site.type := Some "dispersed"; Site.lat := 33.1%float; Site.lon := (-105.2)%float;
     Site.cell_service := Some "weak"; Site.difficulty := Some "moderate" |}.

Definition mesaCamp : Site.t :=
  {| Site.id := "osm-2002"; Site.name := "Mesa Camp";
     Site.type := Some "campground"; Site.lat := 36.4%float; Site.lon := (-105.6)%float;
     Site.cell_service := Some "good"; Site.difficulty := Some "easy" |}.

Definition planA : TripPlan :=
  {| segments := [{| day := 1; suggested_campsite := None |}];
     nearby_campsites := Some [pineFlat]; route_geometry := Some [] |}.

Definition planB : TripPlan :=
  {| segments := [{| day := 1; suggested_campsite := None |}];
     nearby_campsites := Some [mesaCamp]; route_geometry := Some [] |}.

End Planner.

(* ================================================================== *)
(** * The requests a search field sends along a trace *)
(* ================================================================== *)

Module Rate.
Import Geocode.

(** The times at which the timeouts of a trace fire; in a trace that runs,
    each of them sends one request. *)
Fixpoint callTimes (es : list (N * event)) : list N :=
  match es with
  | [] => []
  | (t, TimerFires _) :: rest => t :: callTimes rest
  | _ :: rest => callTimes rest
  end.

(** [apart prev ts]: each time of [ts] comes one debounce interval or more
    after the time before it ([prev] is the time before [ts], if any). *)
Fixpoint apart (prev : option N) (ts : list N) : Prop :=
  match ts with
  | [] => True
  | t :: rest =>
      match prev with
      | Some p => (p + DEBOUNCE <= t)%N
      | None => True
      end /\ apart (Some t) rest
  end.

(** The number of keystrokes of a trace that leave a query of 3 characters
    or more. *)
Fixpoint longKeystrokes (es : list (N * event)) : nat :=
  match es with
  | [] => 0
  | (_, Key query) :: rest =>
      (if (String.length query <? 3)%nat then 0 else 1) + longKeystrokes rest
  | _ :: rest => longKeystrokes rest
  end.

(** What holds of a field whose last request was sent at time [prev]: at
    most one timeout is pending, and it is due one debounce interval or
    more after [prev]. *)
Definition rateInv (prev : option N) (last : N) (f : Field) : Prop :=
  tracked f /\
  forall p, prev = Some p ->
    (p <= last)%N /\
    forall tm, In tm (timers f) -> (p + DEBOUNCE <= deadline tm)%N.

(** The queries a field has sent or has a timeout pending for. *)
Definition queued (f : Field) : list string :=
  (calls f ++ map callback_query (timers f))%list.

End Rate.

(* ================================================================== *)
(** * The offline variant: picking a city *)
(* ================================================================== *)

Module OfflineSelect.
Import Js Offline.

(** [name.split(',').slice(0, 2).join(',')] *)
Definition cityText (name : string) : string :=
  join "," (slice0 2 (split "," name)).

(** One of the two locations of the form: the text of its coordinate
    inputs, the text of its city input, and its suggestion list. *)
Record Location : Type := {
  latText : string;
  lonText : string;
  cityInput : string;
  field : Field
}.

Section WithToString.

(** [x.toString()] on a number. *)
Variable numberToString : float -> string.

(** [selectStartLocation], [selectDestLocation] *)
Definition selectLocation (suggestion : City) (l : Location) : Location :=
  {| latText := numberToString (lat suggestion);
     lonText := numberToString (lon suggestion);
     cityInput := cityText (name suggestion);
     field := {| suggestions := []; searching := searching (field l) |} |}.

End WithToString.

(** The start location at mount. *)
Definition startAtMount : Location :=
  {| latText := "30.27"; lonText := "-97.74"; cityInput := "Austin, TX";
     field := {| suggestions := []; searching := false |} |}.

(** The number of code units of [s] equal to [c]. *)
Fixpoint count (c : ascii) (s : string) : nat :=
  match s with
  | String a rest => (if Ascii.eqb a c then 1 else 0) + count c rest
  | EmptyString => 0
  end.

(** [sub] occurs in [s]. *)
Definition occursIn (sub s : string) : Prop :=
  exists pre post, s = pre ++ sub ++ post.

(** The cities a query matches: those whose name holds the query, letter
    case apart. *)
Definition matches (query : string) (city : City) : Prop :=
  occursIn (toLowerCase query) (toLowerCase (name city)).

End OfflineSelect.

(* ================================================================== *)
(** * Amenities, in the popup of the map and in the page *)
(* ================================================================== *)

Module Amenities.
Import Js.

(** [s.replace(c, d)] for one-character strings [c] and [d]: a string
    pattern replaces its first occurrence only. *)
Fixpoint replace (c d : ascii) (s : string) : string :=
  match s with
  | String a rest =>
      if Ascii.eqb a c then String d rest else String a (replace c d rest)
  | EmptyString => ""
  end.

(** [formatAmenities] of [TripMap]; a missing list is [None]. *)
Definition formatAmenities (amenities : option (list string)) : string :=
  match amenities with
  | None => "None listed"
  | Some l =>
      if (List.length l =? 0)%nat then "None listed"
      else join ", " (map (replace "_"%char " "%char) l)
  end.

(** The amenity tags of the selection panel of [App]:
    [amenities?.map(a => a.replace('_', ' '))], then the tag "None listed"
    when [!amenities || amenities.length === 0]. *)
Definition amenityTags (amenities : option (list string)) : list string :=
  (match amenities with
   | Some l => map (replace "_"%char " "%char) l
   | None => []
   end ++
   (if match amenities with
       | Some l => (List.length l =? 0)%nat
       | None => true
       end
    then ["None listed"] else []))%list.

(** The number of underscores of a string. *)
Definition underscores (s : string) : nat := OfflineSelect.count "_"%char s.

End Amenities.

(* ================================================================== *)
(** * The icon of a direction *)
(* ================================================================== *)

Module Directions.
Import Js.

(** A step of the directions; of its properties, those the icon and the
    road text read. A missing property is [None]. *)
Record Direction : Type := {
  maneuver_type : option string;
  maneuver_modifier : option string;
  ref : option string;
  instruction : option string
}.

(** The seven icons, in the order of the source: the arrows of a left and
    of a right turn, the signs of a merge and of a fork, the car of a
    departure, the flag of an arrival, and the plain arrow. *)
Inductive glyph : Type :=
| TurnLeft | TurnRight | Merge | Fork | Depart | Arrive | Onward.

(** [x === 'lit'] *)
Definition strictEq (x : option string) (lit : string) : bool :=
  match x with
  | Some s => s =? lit
  | None => false
  end.

(** [array.includes(x)] on an array of string literals. *)
Definition includes (array : list string) (x : option string) : bool :=
  existsb (strictEq x) array.

(** [{cond && 'icon'}]: the icon is rendered when the condition holds, and
    nothing is otherwise. *)
Definition child (cond : bool) (g : glyph) : list glyph :=
  if cond then [g] else [].

(** The children of the [direction-icon] span. *)
Definition directionIcon (dir : Direction) : list glyph :=
  (child (strictEq (maneuver_type dir) "turn" && strictEq (maneuver_modifier dir) "left") TurnLeft
   ++ child (strictEq (maneuver_type dir) "turn" && strictEq (maneuver_modifier dir) "right") TurnRight
   ++ child (strictEq (maneuver_type dir) "merge") Merge
   ++ child (strictEq (maneuver_type dir) "fork") Fork
   ++ child (strictEq (maneuver_type dir) "depart") Depart
   ++ child (strictEq (maneuver_type dir) "arrive") Arrive
   ++ child (negb (includes ["turn"; "merge"; "fork"; "depart"; "arrive"]
                            (maneuver_type dir))) Onward)%list.

End Directions.

(* ================================================================== *)
(** * What is shown: the markers of the map and the cards of the page *)
(* ================================================================== *)

Module View.
Import Js Marker.

(** The props [App] hands to [TripMap]. *)
Definition tripMapProps (a : Planner.App) : TripMap.Props :=
  {| TripMap.startLat := Planner.startLat a;
     TripMap.startLon := Planner.startLon a;
     TripMap.destLat := Planner.destLat a;
     TripMap.destLon := Planner.destLon a;
     TripMap.tripPlan := Planner.tripPlan a;
     TripMap.selectedCampsite := Planner.selectedCampsite a |}.

(** A marker of the map: its position and its icon. *)
Record MarkerView : Type := {
  position : TripMap.LatLng;
  icon : value Icon
}.

Section WithParseFloat.

Variable parseFloat : string -> float.

Definition startMarker (p : TripMap.Props) : MarkerView :=
  {| position := TripMap.start parseFloat p; icon := get icons "start" |}.

Definition endMarker (p : TripMap.Props) : MarkerView :=
  {| position := TripMap.dest parseFloat p; icon := get icons "end" |}.

End WithParseFloat.

(** [tripPlan?.nearby_campsites?.map(site => <Marker ... />)]: position
    and icon of each marker; the popup of a marker is not part of the
    model. *)
Definition campsiteMarkers (p : TripMap.Props) : list MarkerView :=
  match TripMap.tripPlan p with
  | Some plan =>
      match nearby_campsites plan with
      | Some sites =>
          map (fun site => {| position := (Site.lat site, Site.lon site);
                              icon := getCampsiteIcon (Site.type site) |}) sites
      | None => []
      end
  | None => []
  end.

(** [selectedCampsite && <Marker ... icon={createIcon('gold')} />] *)
Definition selectedMarker (p : TripMap.Props) : option MarkerView :=
  match TripMap.selectedCampsite p with
  | Some site => Some {| position := (Site.lat site, Site.lon site);
                         icon := Val (createIcon "gold") |}
  | None => None
  end.

(** [selectedCampsite?.id === site.id] *)
Definition isSelected (selectedCampsite : option Site.t) (site : Site.t) : bool :=
  match selectedCampsite with
  | Some s => Site.id s =? Site.id site
  | None => false
  end.

(** The class name of the card of a nearby campsite, and of the card of a
    suggested campsite. *)
Definition cardClassName (a : Planner.App) (site : Site.t) : string :=
  "campsite-card " ++
  (if isSelected (Planner.selectedCampsite a) site then "selected" else "").

Definition suggestionClassName (a : Planner.App) (site : Site.t) : string :=
  "campsite-suggestion " ++
  (if isSelected (Planner.selectedCampsite a) site then "selected" else "").

(** The city input of a search field, and the end of the route it
    stands for. *)
Definition cityOf (w : Planner.which) (a : Planner.App) : string :=
  match w with
  | Planner.StartField => Planner.startCity a
  | Planner.DestField => Planner.destCity a
  end.

Definition endpoint (parseFloat : string -> float) (w : Planner.which)
    (p : TripMap.Props) : TripMap.LatLng :=
  match w with
  | Planner.StartField => TripMap.start parseFloat p
  | Planner.DestField => TripMap.dest parseFloat p
  end.

(** The text [selectStartLocation] and [selectDestLocation] put in the city
    input: [suggestion.shortName || suggestion.name]. *)
Definition pickedText (s : Geocode.Suggestion.t) : string :=
  if truthy (Geocode.Suggestion.shortName s)
  then Geocode.Suggestion.shortName s
  else Geocode.Suggestion.name s.

(** The text of the two coordinates of an end of the route. *)
Definition coordinateTexts (w : Planner.which) (a : Planner.App) : string * string :=
  match w with
  | Planner.StartField => (Planner.startLat a, Planner.startLon a)
  | Planner.DestField => (Planner.destLat a, Planner.destLon a)
  end.

(** [returned parseFloat history w s]: the suggestion [s] was made from a
    result of a response that arrived for the field [w] along [history]. *)
Definition returned (parseFloat : string -> float)
    (history : list (N * Planner.event)) (w : Planner.which)
    (s : Geocode.Suggestion.t) : Prop :=
  exists t rid data r,
    In (t, Planner.Search w (Geocode.Settles rid (Geocode.Json data))) history /\
    In r data /\ s = Geocode.toSuggestion parseFloat r.

(** What holds of the application along [history]: the suggestions a field
    shows were returned for it, and the coordinates of each end of the
    route are those at mount or those of a suggestion returned for its
    field. *)
Definition fromGeocoding (parseFloat : string -> float)
    (numberToString : float -> string)
    (history : list (N * Planner.event)) (a : Planner.App) : Prop :=
  forall w,
    (forall s, In s (Geocode.suggestions (Planner.search w a)) ->
       returned parseFloat history w s) /\
    (coordinateTexts w a = coordinateTexts w Planner.init \/
     exists s, returned parseFloat history w s /\
               coordinateTexts w a
               = (numberToString (Geocode.Suggestion.lat s),
                  numberToString (Geocode.Suggestion.lon s))).

(** "aus" is typed into the start field and sent, the response holds
    Denver, and the user picks it; and the application after that trace. *)
Definition denverPickedTrace : list (N * Planner.event) :=
  [ (0%N, Planner.Search Planner.StartField (Geocode.Key "aus"));
    (400%N, Planner.Search Planner.StartField (Geocode.TimerFires 1%positive));
    (600%N, Planner.Search Planner.StartField
              (Geocode.Settles 0 (Geocode.Json [Geocode.denver])));
    (700%N, Planner.Search Planner.StartField (Geocode.Pick 0)) ].

Definition denverPicked : Planner.App :=
  Planner.setCity Planner.StartField "Denver, Colorado"
    (Planner.setLatLon Planner.StartField "39.74" "-104.99"
       (Planner.withSearch Planner.StartField
          {| Geocode.suggestions := []; Geocode.searching := false;
             Geocode.timerRef := Some 1%positive; Geocode.timers := [];
             Geocode.next_timer := 2%positive; Geocode.inflight := [];
             Geocode.calls := ["aus"] |}
          Planner.init)).

(** The application at mount, but with the destination field showing the
    suggestion for Austin. *)
Definition austinSuggested : Planner.App :=
  Planner.withSearch Planner.DestField
    (Geocode.setSuggestions
       (map (Geocode.toSuggestion Planner.parseCoordinate) [Geocode.austin])
       Geocode.init)
    Planner.init.

(** The application at mount, but with the start field showing the
    suggestion for Austin while the request for "aust" is in flight. *)
Definition austinShownWhileSearching : Planner.App :=
  Planner.withSearch Planner.StartField
    {| Geocode.suggestions :=
         map (Geocode.toSuggestion Planner.parseCoordinate) [Geocode.austin];
       Geocode.searching := true; Geocode.timerRef := Some 2%positive;
       Geocode.timers := []; Geocode.next_timer := 3%positive;
       Geocode.inflight := [{| Geocode.request_id := 1;
                               Geocode.request_query := "aust" |}];
       Geocode.calls := ["aus"; "aust"] |}
    Planner.init.


(** A campsite the plan suggests for a night without listing it among the
    nearby ones. *)
Definition planWithSuggestion : TripPlan :=
  {| segments := [{| day := 1; suggested_campsite := Some Planner.pineFlat |}];
     nearby_campsites := Some [Planner.mesaCamp]; route_geometry := Some [] |}.

End View.

(* ================================================================== *)
(** * Theorems *)
(* ================================================================== *)

Section JsFacts.
Import Js.

(** ** The string functions *)

Lemma truthy_nonempty (s : string) : truthy s = true <-> s <> "".
Proof.
  unfold truthy. destruct (String.eqb_spec s ""); simpl; split; congruence.
Qed.

Lemma split_nonempty (c : ascii) (s : string) : split c s <> [].
Proof.
  induction s as [|a rest IH]; simpl; [discriminate|].
  destruct (Ascii.eqb a c); [discriminate|].
  destruct (split c rest); discriminate.
Qed.

(** Joining the tokens with the separator gives the string back. *)
Lemma join_split (c : ascii) (s : string) :
  join (String c "") (split c s) = s.
Proof.
  unfold join. induction s as [|a rest IH]; simpl; [reflexivity|].
  destruct (Ascii.eqb_spec a c) as [->|Hne].
  - destruct (split c rest) as [|tok toks] eqn:E.
    + exfalso. exact (split_nonempty c rest E).
    + simpl in *. now rewrite IH.
  - destruct (split c rest) as [|tok toks] eqn:E.
    + exfalso. exact (split_nonempty c rest E).
    + destruct toks; simpl in *; now rewrite <- IH.
Qed.

Lemma truthy_toUpperCase (s : string) : truthy (toUpperCase s) = truthy s.
Proof. destruct s; reflexivity. Qed.

End JsFacts.

Section GeocodeTheory.
Import Js Geocode.

(** Whatever [parseFloat] computes. *)
Variable parseFloat : string -> float.

Local Abbreviation toSuggestion := (Geocode.toSuggestion parseFloat).
Local Abbreviation step := (Geocode.step parseFloat).
Local Abbreviation run := (Geocode.run parseFloat).
Local Abbreviation reachable := (Geocode.reachable parseFloat).

(** ** Executions compose *)

Lemma run_app (last : N) (f : Field) (es1 es2 : list (N * event)) :
  run last f (es1 ++ es2) =
  match run last f es1 with
  | Some f' => run (endTime last es1) f' es2
  | None => None
  end.
Proof.
  revert last f. induction es1 as [|[t e] es1 IH]; intros last f; [reflexivity|].
  cbn [app Geocode.run endTime]. destruct (last <=? t)%N; [|reflexivity].
  destruct (step t f e) as [f'|]; [|reflexivity].
  apply IH.
Qed.

(** ** The label *)

Lemma firstPresent_truthy (xs : list (option string)) (s : string) :
  firstPresent xs = Some s -> truthy s = true.
Proof.
  induction xs as [|x xs IH]; cbn [firstPresent]; [discriminate|].
  destruct x as [x|]; cbn [present]; [|exact IH].
  unfold truthy. destruct (String.eqb_spec x ""); [exact IH|].
  intros [= <-]. destruct (String.eqb_spec x ""); [contradiction|reflexivity].
Qed.

Lemma oror_present (x y : option string) :
  oror x y = match present x with Some _ => x | None => y end.
Proof.
  unfold oror, truthyO, truthy, present. destruct x as [s|]; [|reflexivity].
  destruct (s =? ""); reflexivity.
Qed.

Lemma present_oror (x y : option string) :
  present (oror x y) = match present x with Some s => Some s | None => present y end.
Proof.
  rewrite oror_present. destruct (present x) eqn:E; [exact E|reflexivity].
Qed.

Lemma ororString_present (x : option string) :
  ororString x "" = match present x with Some s => s | None => "" end.
Proof.
  unfold ororString, truthy, present. destruct x as [s|]; [|reflexivity].
  destruct (String.eqb_spec s ""); simpl; congruence.
Qed.

(** The [||] chain picks the first property that is there and not empty. *)
Lemma place_chain (c t v h co : option string) :
  ororString (oror (oror (oror (oror c t) v) h) co) "" =
  match firstPresent [c; t; v; h; co] with
  | Some s => s
  | None => ""
  end.
Proof.
  rewrite ororString_present, !present_oror. cbn [firstPresent].
  destruct (present c); [reflexivity|].
  destruct (present t); [reflexivity|].
  destruct (present v); [reflexivity|].
  destruct (present h); [reflexivity|].
  destruct (present co); reflexivity.
Qed.

Lemma join_first_two (l : list string) :
  join ", " (slice0 2 l) =
  match l with
  | [] => ""
  | [a] => a
  | a :: b :: _ => a ++ ", " ++ b
  end.
Proof. destruct l as [|a [|b l]]; reflexivity. Qed.

Lemma present_truthy (x : option string) (s : string) :
  present x = Some s -> truthy s = true.
Proof.
  unfold present, truthy. destruct x as [y|]; [|discriminate].
  destruct (String.eqb_spec y ""); [discriminate|].
  intros [= <-]. destruct (String.eqb_spec y ""); [contradiction|reflexivity].
Qed.

Lemma country_present (cc : option string) :
  match cc with
  | Some c => if truthy c then toUpperCase c else ""
  | None => ""
  end = match present cc with Some c => toUpperCase c | None => "" end.
Proof.
  unfold present, truthy. destruct cc as [c|]; [|reflexivity].
  destruct (c =? ""); reflexivity.
Qed.

(** C7. [buildShortName] is a function of the address record and the
    display name alone, and computes the label the specification describes:
    with [place] the first of city, town, village, hamlet and county that is
    present, it is "place, state" when a place and a state are present,
    "place, COUNTRY-CODE" (upper case) when a place is present, no state is
    and a country code is, and otherwise the first two comma-separated
    tokens of the display name (trimmed), joined by ", ". A property counts
    as present when it is there and not the empty string. *)
Theorem buildShortName_spec (result : Result.t) :
  buildShortName result = shortName_spec result.
Proof.
  unfold buildShortName, shortName_spec.
  set (addr := match Result.address result with
               | Some a => a
               | None => emptyAddress
               end).
  rewrite place_chain, ororString_present, country_present, join_first_two.
  unfold firstTwoTokens.
  destruct (firstPresent _) as [c|] eqn:Ec.
  - rewrite (firstPresent_truthy _ _ Ec). cbn [andb].
    destruct (present (state addr)) as [st|] eqn:Es.
    + now rewrite (present_truthy _ _ Es).
    + cbn [truthy String.eqb negb].
      destruct (present (country_code addr)) as [cc|] eqn:Ecc.
      * now rewrite truthy_toUpperCase, (present_truthy _ _ Ecc).
      * reflexivity.
  - reflexivity.
Qed.

(** The three cases on examples: a city with a state, a town with a
    country code only, and a record without address details. *)
Example shortName_city_state :
  buildShortName
    {| Result.display_name := "Austin, Travis County, Texas, United States";
       Result.lat := "30.2711286"; Result.lon := "-97.7436995";
       Result.address := Some {| city := Some "Austin"; town := None;
         village := None; hamlet := None; county := Some "Travis County";
         state := Some "Texas"; country_code := Some "us" |} |}
  = "Austin, Texas".
Proof. reflexivity. Qed.

Example shortName_town_country :
  buildShortName
    {| Result.display_name := "Banff, Canada";
       Result.lat := "51.1777781"; Result.lon := "-115.5682504";
       Result.address := Some {| city := Some ""; town := Some "Banff";
         village := None; hamlet := None; county := None;
         state := None; country_code := Some "ca" |} |}
  = "Banff, CA".
Proof. reflexivity. Qed.

Example shortName_tokens :
  buildShortName
    {| Result.display_name := "Big Bend ,  Brewster County,Texas";
       Result.lat := "29.25"; Result.lon := "-103.25";
       Result.address := None |}
  = "Big Bend, Brewster County".
Proof. reflexivity. Qed.

(** ** Short queries *)

(** On a query shorter than 3 characters [geocodeCity] does one thing: it
    sets the suggestion list to the empty list. *)
Lemma geocodeCity_short (t : N) (query : string) (f : Field) :
  String.length query < 3 -> geocodeCity t query f = setSuggestions [] f.
Proof.
  intros Hlen. unfold geocodeCity.
  destruct (Nat.ltb_spec (String.length query) 3) as [_|Hge]; [reflexivity|lia].
Qed.

(** C2. A query shorter than 3 characters sends no request and schedules
    none: the keystroke leaves the log of calls, the requests in flight and
    the pending timeouts as they were, and sets the suggestion list to the
    empty list at once. *)
Theorem short_query_no_call (t : N) (query : string) (f : Field) :
  String.length query < 3 ->
  exists f', step t f (Key query) = Some f' /\
    suggestions f' = [] /\
    calls f' = calls f /\ inflight f' = inflight f /\
    timers f' = timers f /\ timerRef f' = timerRef f.
Proof.
  intros Hlen. exists (setSuggestions [] f). split.
  - cbn [Geocode.step]. now rewrite (geocodeCity_short t query f Hlen).
  - cbn. repeat split.
Qed.

Lemma dropTimer_tracked (f : Field) (id : positive) :
  tracked f -> timerRef f = Some id -> dropTimer id (timers f) = [].
Proof.
  intros [Hlen Hin] Href. destruct (timers f) as [|tm [|tm' ts]]; cbn in *; [reflexivity| |lia].
  specialize (Hin tm (or_introl eq_refl)). rewrite Href in Hin. injection Hin as ->.
  now rewrite Pos.eqb_refl.
Qed.

Lemma tracked_no_ref (f : Field) : tracked f -> timerRef f = None -> timers f = [].
Proof.
  intros [_ Hin] Href. destruct (timers f) as [|tm ts]; [reflexivity|].
  specialize (Hin tm (or_introl eq_refl)). congruence.
Qed.

(** A keystroke of 3 characters or more cancels the pending timeout and
    schedules a new one, due one debounce interval later; nothing else of
    the field changes. *)
Lemma geocodeCity_reschedules (t : N) (query : string) (f : Field) :
  tracked f -> 3 <= String.length query ->
  geocodeCity t query f =
  {| suggestions := suggestions f; searching := searching f;
     timerRef := Some (next_timer f);
     timers := [{| timer_id := next_timer f; deadline := (t + DEBOUNCE)%N;
                   callback_query := query |}];
     next_timer := Pos.succ (next_timer f);
     inflight := inflight f; calls := calls f |}.
Proof.
  intros Htr Hlen. unfold geocodeCity.
  destruct (Nat.ltb_spec (String.length query) 3) as [Hlt|_]; [lia|].
  destruct (timerRef f) as [id|] eqn:Href.
  - unfold setTimeoutRef, clearTimeout, withTimers. cbn.
    now rewrite (dropTimer_tracked f id Htr Href).
  - unfold setTimeoutRef. now rewrite (tracked_no_ref f Htr Href).
Qed.

Lemma dropTimer_length (id : positive) (ts : list Timer) :
  List.length (dropTimer id ts) <= List.length ts.
Proof. apply filter_length_le. Qed.

Lemma tracked_step (t : N) (f f' : Field) (e : event) :
  tracked f -> step t f e = Some f' -> tracked f'.
Proof.
  intros Htr Hstep. destruct e as [query|id|rid r|i]; cbn [Geocode.step] in Hstep.
  - injection Hstep as <-.
    destruct (Nat.ltb_spec (String.length query) 3) as [Hlt|Hge].
    + now rewrite (geocodeCity_short t query f Hlt).
    + rewrite (geocodeCity_reschedules t query f Htr Hge). split; cbn.
      * lia.
      * intros tm [<-|[]]. reflexivity.
  - destruct (findTimer id f) as [tm|]; [|discriminate].
    destruct (deadline tm <=? t)%N; [|discriminate].
    injection Hstep as <-. destruct Htr as [Hlen Hin]. split; cbn.
    + pose proof (dropTimer_length id (timers f)). lia.
    + intros tm' Hin'. apply filter_In in Hin'. now apply Hin.
  - destruct (findRequest rid f); [|discriminate].
    injection Hstep as <-. destruct r; exact Htr.
  - destruct (nth_error (suggestions f) i); [|discriminate].
    injection Hstep as <-. exact Htr.
Qed.

Lemma tracked_run (es : list (N * event)) (last : N) (f f' : Field) :
  tracked f -> run last f es = Some f' -> tracked f'.
Proof.
  revert last f. induction es as [|[t e] es IH]; intros last f Htr Hrun; cbn [Geocode.run] in Hrun.
  - now injection Hrun as <-.
  - destruct (last <=? t)%N; [|discriminate].
    destruct (step t f e) as [f1|] eqn:Hstep; [|discriminate].
    exact (IH t f1 (tracked_step t f f1 e Htr Hstep) Hrun).
Qed.

Lemma tracked_init : tracked init.
Proof. split; cbn; [lia|contradiction]. Qed.

(** Every state a field can be in has at most one timeout pending. *)
Lemma reachable_tracked (f : Field) : reachable f -> tracked f.
Proof. intros [es Hrun]. exact (tracked_run es 0 init f tracked_init Hrun). Qed.

(** After any history of the field at most one timeout is pending, and
    it is the one whose id the timer ref holds. *)
Theorem one_timeout_pending (history : list (N * event)) (f : Field) :
  run 0 init history = Some f ->
  List.length (timers f) <= 1 /\
  forall tm, In tm (timers f) -> timerRef f = Some (timer_id tm).
Proof. intros Hrun. apply reachable_tracked. now exists history. Qed.

(** ** Single steps *)

Lemma step_fire (t : N) (f : Field) (tm : Timer) :
  timers f = [tm] -> (deadline tm <= t)%N ->
  step t f (TimerFires (timer_id tm)) =
  Some {| suggestions := suggestions f; searching := true;
          timerRef := timerRef f; timers := [];
          next_timer := next_timer f;
          inflight := inflight f ++ [{| request_id := List.length (calls f);
                                        request_query := callback_query tm |}];
          calls := calls f ++ [callback_query tm] |}.
Proof.
  intros Htm Hdue. cbn [Geocode.step]. unfold findTimer. rewrite Htm. cbn [find].
  rewrite Pos.eqb_refl. apply N.leb_le in Hdue. rewrite Hdue.
  unfold callbackStart, withTimers, dropTimer. cbn. now rewrite Pos.eqb_refl.
Qed.

Lemma findRequest_inflight (rid : nat) (f : Field) :
  (exists r, In r (inflight f) /\ request_id r = rid) <->
  findRequest rid f <> None.
Proof.
  unfold findRequest. split.
  - intros (r & Hin & Hid) Hnone.
    pose proof (find_none _ _ Hnone r Hin) as Hf. cbn in Hf.
    apply Nat.eqb_neq in Hf. contradiction.
  - destruct (find _ _) as [r|] eqn:E; [|congruence].
    intros _. apply find_some in E. destruct E as [Hin Hid].
    apply Nat.eqb_eq in Hid. now exists r.
Qed.

(** A request in flight can settle, and the callback then stores what the
    response gives, whatever was sent or has settled after it. *)
Lemma step_settles (t : N) (rid : nat) (r : response) (f : Field) :
  (exists rq, In rq (inflight f) /\ request_id rq = rid) ->
  step t f (Settles rid r) =
  Some {| suggestions := match r with
                         | Json data => map toSuggestion data
                         | _ => []
                         end;
          searching := false; timerRef := timerRef f; timers := timers f;
          next_timer := next_timer f;
          inflight := dropRequest rid (inflight f); calls := calls f |}.
Proof.
  intros Hin. apply findRequest_inflight in Hin. cbn [Geocode.step].
  destruct (findRequest rid f); [|congruence].
  destruct r; reflexivity.
Qed.

Ltac times := repeat rewrite (proj2 (N.leb_le _ _)) by lia.

Lemma tracked_one (f : Field) (tm : Timer) :
  timers f = [tm] -> timerRef f = Some (timer_id tm) -> tracked f.
Proof.
  intros Htm Href. split; rewrite Htm; cbn; [lia|].
  now intros tm' [<-|[]].
Qed.

Lemma tracked_none (f : Field) : timers f = [] -> tracked f.
Proof. intros Htm. split; rewrite Htm; cbn; [lia|contradiction]. Qed.

Lemma run_cons (last t : N) (f f1 : Field) (e : event) (rest : list (N * event)) :
  (last <= t)%N -> step t f e = Some f1 ->
  run last f ((t, e) :: rest) = run t f1 rest.
Proof. intros Hle Hstep. cbn [Geocode.run]. times. now rewrite Hstep. Qed.

(** The three kinds of step, by what they leave in each part of the
    field. *)
Lemma key_long_step (t : N) (query : string) (f : Field) :
  tracked f -> 3 <= String.length query ->
  exists f', step t f (Key query) = Some f' /\
    timers f' = [{| timer_id := next_timer f; deadline := (t + DEBOUNCE)%N;
                    callback_query := query |}] /\
    timerRef f' = Some (next_timer f) /\
    next_timer f' = Pos.succ (next_timer f) /\
    inflight f' = inflight f /\ calls f' = calls f /\
    suggestions f' = suggestions f.
Proof.
  intros Htr Hlen. eexists. split; [reflexivity|].
  rewrite (geocodeCity_reschedules t query f Htr Hlen). cbn. repeat split.
Qed.

Lemma fire_step (t : N) (f : Field) (tm : Timer) :
  timers f = [tm] -> (deadline tm <= t)%N ->
  exists f', step t f (TimerFires (timer_id tm)) = Some f' /\
    timers f' = [] /\ timerRef f' = timerRef f /\
    next_timer f' = next_timer f /\
    inflight f' = (inflight f ++ [{| request_id := List.length (calls f);
                                     request_query := callback_query tm |}])%list /\
    calls f' = (calls f ++ [callback_query tm])%list /\
    suggestions f' = suggestions f.
Proof.
  intros Htm Hdue. eexists. split; [exact (step_fire t f tm Htm Hdue)|].
  cbn. repeat split.
Qed.

Lemma settle_step (t : N) (f : Field) (rq : Request) (r : response) :
  In rq (inflight f) ->
  exists f', step t f (Settles (request_id rq) r) = Some f' /\
    suggestions f' = match r with
                     | Json data => map toSuggestion data
                     | _ => []
                     end /\
    searching f' = false /\
    timers f' = timers f /\ timerRef f' = timerRef f /\
    next_timer f' = next_timer f /\ calls f' = calls f /\
    inflight f' = dropRequest (request_id rq) (inflight f).
Proof.
  intros Hin. eexists. split.
  - apply step_settles. now exists rq.
  - cbn. repeat split.
Qed.

(** ** Responses are applied in the order they arrive *)

(** Two queries of one field, both sent before either response is back,
    and the responses arriving in the opposite order: the response to the
    first query is stored last. *)
Lemma crossing_responses (last : N) (f : Field) (q1 q2 : string)
    (d1 d2 : list Result.t) (t1 u1 t2 u2 s2 s1 : N) :
  tracked f -> (last <= t1)%N ->
  3 <= String.length q1 -> 3 <= String.length q2 ->
  (t1 + DEBOUNCE <= u1)%N -> (u1 <= t2)%N -> (t2 + DEBOUNCE <= u2)%N ->
  (u2 <= s2)%N -> (s2 <= s1)%N ->
  exists f',
    run last f
      [ (t1, Key q1); (u1, TimerFires (next_timer f));
        (t2, Key q2); (u2, TimerFires (Pos.succ (next_timer f)));
        (s2, Settles (S (List.length (calls f))) (Json d2));
        (s1, Settles (List.length (calls f)) (Json d1)) ] = Some f' /\
    suggestions f' = map toSuggestion d1 /\
    calls f' = (calls f ++ [q1; q2])%list.
Proof.
  intros Htr Hlast Hq1 Hq2 Hu1 Ht2 Hu2 Hs2 Hs1.
  destruct (key_long_step t1 q1 f Htr Hq1)
    as (f1 & E1 & T1 & R1 & N1 & I1 & C1 & _).
  destruct (fire_step u1 f1 _ T1 Hu1) as (f2 & E2 & T2 & R2 & N2 & I2 & C2 & _).
  cbn [timer_id callback_query] in E2, I2, C2.
  destruct (key_long_step t2 q2 f2 (tracked_none f2 T2) Hq2)
    as (f3 & E3 & T3 & R3 & N3 & I3 & C3 & _).
  destruct (fire_step u2 f3 _ T3 Hu2) as (f4 & E4 & T4 & R4 & N4 & I4 & C4 & _).
  cbn [timer_id callback_query] in E4, I4, C4.
  rewrite N2, N1 in E4.
  set (rq1 := {| request_id := List.length (calls f); request_query := q1 |}).
  set (rq2 := {| request_id := S (List.length (calls f)); request_query := q2 |}).
  assert (I4' : inflight f4 = (inflight f ++ [rq1; rq2])%list).
  { rewrite I4, I3, I2, I1, C3, C2, C1, length_app, <- app_assoc. cbn.
    now rewrite Nat.add_1_r. }
  destruct (settle_step s2 f4 rq2 (Json d2)) as (f5 & E5 & _ & _ & _ & _ & _ & C5 & I5).
  { rewrite I4', in_app_iff. cbn. tauto. }
  destruct (settle_step s1 f5 rq1 (Json d1)) as (f6 & E6 & S6 & _ & _ & _ & _ & C6 & _).
  { rewrite I5, I4'. apply filter_In. split; [rewrite in_app_iff; cbn; tauto|].
    cbn. apply negb_true_iff, Nat.eqb_neq. lia. }
  cbn [request_id rq1 rq2] in E5, E6.
  exists f6. split.
  - unfold DEBOUNCE in *.
    rewrite (run_cons last t1 f f1 _ _ Hlast E1).
    rewrite (run_cons t1 u1 f1 f2 _ _ ltac:(lia) E2).
    rewrite (run_cons u1 t2 f2 f3 _ _ Ht2 E3).
    rewrite (run_cons t2 u2 f3 f4 _ _ ltac:(lia) E4).
    rewrite (run_cons u2 s2 f4 f5 _ _ Hs2 E5).
    rewrite (run_cons s2 s1 f5 f6 _ _ Hs1 E6).
    reflexivity.
  - split; [exact S6|].
    rewrite C6, C5, C4, C3, C2, C1, <- app_assoc. reflexivity.
Qed.

(** C1 (as amended). No sequence number is kept: a response is stored when
    it arrives. After any history of the field, let a query Q1 be typed and
    sent, a query Q2 be typed and sent before the response to Q1 is back,
    and the response to Q2 arrive before the response to Q1 (all queries of
    3 characters or more). Then the suggestion list left at the end is the
    one built from the response to Q1, the query sent first. *)
Theorem last_resolved_wins (history : list (N * event)) (f : Field)
    (q1 q2 : string) (d1 d2 : list Result.t) (t1 u1 t2 u2 s2 s1 : N) :
  run 0 init history = Some f -> (endTime 0 history <= t1)%N ->
  3 <= String.length q1 -> 3 <= String.length q2 ->
  (t1 + DEBOUNCE <= u1)%N -> (u1 <= t2)%N -> (t2 + DEBOUNCE <= u2)%N ->
  (u2 <= s2)%N -> (s2 <= s1)%N ->
  exists f',
    run 0 init
      (history ++
       [ (t1, Key q1); (u1, TimerFires (next_timer f));
         (t2, Key q2); (u2, TimerFires (Pos.succ (next_timer f)));
         (s2, Settles (S (List.length (calls f))) (Json d2));
         (s1, Settles (List.length (calls f)) (Json d1)) ]) = Some f' /\
    suggestions f' = map toSuggestion d1 /\
    calls f' = (calls f ++ [q1; q2])%list.
Proof.
  intros Hrun Hend Hq1 Hq2 Hu1 Ht2 Hu2 Hs2 Hs1.
  rewrite run_app, Hrun.
  apply crossing_responses; try assumption.
  apply reachable_tracked. now exists history.
Qed.

(** ** A short query does not cancel the pending timeout *)

(** C10. After any history of the field, let a query Q1 of 3 characters or
    more be typed at [t1] and, before the timeout of Q1 is due, a query Q2
    of fewer than 3 characters at [t2]. The second keystroke empties the
    suggestion list and leaves the timeout of Q1 pending; when it fires,
    the request for Q1 is sent, and when that request brings results, they
    replace the emptied list. *)
Theorem short_query_keeps_timer (history : list (N * event)) (f : Field)
    (q1 q2 : string) (data : list Result.t) (t1 t2 u s : N) :
  run 0 init history = Some f -> (endTime 0 history <= t1)%N ->
  3 <= String.length q1 -> String.length q2 < 3 ->
  (t1 <= t2)%N -> (t2 < t1 + DEBOUNCE)%N -> (t1 + DEBOUNCE <= u)%N -> (u <= s)%N ->
  exists f2 f3 f4,
    run 0 init (history ++ [(t1, Key q1); (t2, Key q2)]) = Some f2 /\
    suggestions f2 = [] /\
    timers f2 = [{| timer_id := next_timer f; deadline := (t1 + DEBOUNCE)%N;
                    callback_query := q1 |}] /\
    step u f2 (TimerFires (next_timer f)) = Some f3 /\
    calls f3 = (calls f ++ [q1])%list /\
    step s f3 (Settles (List.length (calls f)) (Json data)) = Some f4 /\
    suggestions f4 = map toSuggestion data.
Proof.
  intros Hrun Hend Hq1 Hq2 Ht2 Hbefore Hu Hs.
  assert (Htr : tracked f) by (apply reachable_tracked; now exists history).
  destruct (key_long_step t1 q1 f Htr Hq1)
    as (f1 & E1 & T1 & R1 & N1 & I1 & C1 & _).
  pose (f2 := setSuggestions [] f1).
  assert (E2 : step t2 f1 (Key q2) = Some f2).
  { cbn [Geocode.step]. now rewrite (geocodeCity_short t2 q2 f1 Hq2). }
  assert (S2 : suggestions f2 = []) by reflexivity.
  assert (C2 : calls f2 = calls f1) by reflexivity.
  assert (I2 : inflight f2 = inflight f1) by reflexivity.
  assert (T2 : timers f2 = timers f1) by reflexivity.
  rewrite T1 in T2.
  destruct (fire_step u f2 _ T2 Hu) as (f3 & E3 & _ & _ & _ & I3 & C3 & _).
  cbn [timer_id callback_query] in E3, I3, C3.
  rewrite C2, C1 in C3. rewrite I2, I1, C2, C1 in I3.
  set (rq := {| request_id := List.length (calls f); request_query := q1 |}) in I3.
  destruct (settle_step s f3 rq (Json data)) as (f4 & E4 & S4 & _).
  { rewrite I3, in_app_iff. cbn. tauto. }
  exists f2, f3, f4. repeat split; try assumption.
  rewrite run_app, Hrun.
  rewrite (run_cons _ t1 f f1 _ _ Hend E1), (run_cons t1 t2 f1 f2 _ _ Ht2 E2).
  reflexivity.
Qed.

Lemma burstInv_tracked (lk : option (N * string)) (last : N)
    (cs : list string) (f : Field) :
  burstInv lk last cs f -> tracked f.
Proof.
  destruct lk as [[k query]|]; cbn.
  - intros [(_ & id & Htm & Href)|(_ & Htm & _)].
    + exact (tracked_one f _ Htm Href).
    + exact (tracked_none f Htm).
  - intros [Htm _]. exact (tracked_none f Htm).
Qed.

Lemma burstInv_step (lk : option (N * string)) (last t : N)
    (cs : list string) (f0 f f' : Field) (e : event) :
  burstInv lk last cs f -> calls f = (calls f0 ++ cs)%list ->
  (last <= t)%N -> step t f e = Some f' ->
  spaced lk [(t, e)] -> longQueries [(t, e)] ->
  exists cs', calls f' = (calls f0 ++ cs')%list /\
              burstInv (lastKeystroke lk [(t, e)]) t cs' f'.
Proof.
  intros Hinv Hcalls Hle Hstep Hsp Hlong.
  destruct e as [query|id|rid r|i].
  - (* a keystroke *)
    assert (Hlen : 3 <= String.length query) by (apply (Hlong t); now left).
    destruct (key_long_step t query f (burstInv_tracked _ _ _ _ Hinv) Hlen)
      as (f1 & E1 & T1 & R1 & _ & _ & C1 & _).
    rewrite E1 in Hstep. injection Hstep as <-.
    cbn [spaced] in Hsp. destruct Hsp as [Hgap _].
    assert (Hcs : cs = []).
    { destruct lk as [[k q0]|]; cbn in Hinv.
      - destruct Hinv as [(Hcs & _)|(_ & _ & Hfired)]; [exact Hcs|lia].
      - now destruct Hinv. }
    exists []. split; [now rewrite C1, Hcalls, Hcs|].
    cbn. left. split; [reflexivity|]. now exists (next_timer f).
  - (* a timeout fires *)
    cbn [lastKeystroke]. cbn [Geocode.step] in Hstep. unfold findTimer in Hstep.
    destruct lk as [[k query]|]; cbn in Hinv.
    + destruct Hinv as [(Hcs & id0 & Htm & Href)|(_ & Htm & _)].
      * rewrite Htm in Hstep. cbn [find timer_id] in Hstep.
        destruct (Pos.eqb_spec id0 id) as [<-|]; [|discriminate].
        cbn [deadline] in Hstep.
        destruct (N.leb_spec (k + DEBOUNCE) t) as [Hdue|]; [|discriminate].
        injection Hstep as <-. exists [query]. split.
        -- cbn. now rewrite Hcalls, Hcs, app_nil_r.
        -- cbn. right. repeat split; [|exact Hdue].
           cbn. now rewrite Pos.eqb_refl.
      * rewrite Htm in Hstep. discriminate.
    + destruct Hinv as [Htm _]. rewrite Htm in Hstep. discriminate.
  - (* a request settles *)
    cbn [lastKeystroke]. cbn [Geocode.step] in Hstep.
    destruct (findRequest rid f); [|discriminate].
    injection Hstep as <-. exists cs. split.
    + destruct r; exact Hcalls.
    + destruct lk as [[k query]|]; cbn in Hinv |- *.
      * destruct Hinv as [(Hcs & id0 & Htm & Href)|(Hcs & Htm & Hfired)].
        -- left. split; [exact Hcs|]. exists id0. destruct r; now split.
        -- right. repeat split; [exact Hcs| |lia]. destruct r; exact Htm.
      * destruct r; exact Hinv.
  - (* a suggestion is picked *)
    cbn [lastKeystroke]. cbn [Geocode.step] in Hstep.
    destruct (nth_error (suggestions f) i); [|discriminate].
    injection Hstep as <-. exists cs. split; [exact Hcalls|].
    destruct lk as [[k query]|]; cbn in Hinv |- *; [|exact Hinv].
    destruct Hinv as [Hp|(Hcs & Htm & Hfired)]; [now left|].
    right. repeat split; [exact Hcs|exact Htm|lia].
Qed.

Lemma spaced_cons (lk : option (N * string)) (t : N) (e : event)
    (es : list (N * event)) :
  spaced lk ((t, e) :: es) <->
  spaced lk [(t, e)] /\ spaced (lastKeystroke lk [(t, e)]) es.
Proof. destruct e; cbn; tauto. Qed.

Lemma burstInv_run (es : list (N * event)) (lk : option (N * string))
    (last : N) (cs : list string) (f0 f f' : Field) :
  burstInv lk last cs f -> calls f = (calls f0 ++ cs)%list ->
  run last f es = Some f' -> spaced lk es -> longQueries es ->
  exists cs', calls f' = (calls f0 ++ cs')%list /\
              burstInv (lastKeystroke lk es) (endTime last es) cs' f'.
Proof.
  revert lk last cs f.
  induction es as [|[t e] es IH]; intros lk last cs f Hinv Hcalls Hrun Hsp Hlong.
  - cbn in Hrun. injection Hrun as <-. now exists cs.
  - cbn [Geocode.run] in Hrun.
    destruct (N.leb_spec last t) as [Hle|]; [|discriminate].
    destruct (step t f e) as [f1|] eqn:Hstep; [|discriminate].
    apply spaced_cons in Hsp. destruct Hsp as [Hsp1 Hsp].
    destruct (burstInv_step lk last t cs f0 f f1 e Hinv Hcalls Hle Hstep Hsp1)
      as (cs1 & Hcalls1 & Hinv1).
    { intros t' q' [Heq|[]]. apply (Hlong t' q'). left. exact Heq. }
    destruct (IH _ t cs1 f1 Hinv1 Hcalls1 Hrun Hsp) as (cs' & Hcalls' & Hinv').
    { intros t' q' Hin. apply (Hlong t' q'). now right. }
    exists cs'. split; [exact Hcalls'|].
    assert (Hlk : lastKeystroke lk ((t, e) :: es) =
                  lastKeystroke (lastKeystroke lk [(t, e)]) es)
      by (destruct e; reflexivity).
    now rewrite Hlk.
Qed.

Lemma spaced_app (es1 es2 : list (N * event)) (lk : option (N * string)) :
  spaced lk (es1 ++ es2) -> spaced lk es1.
Proof.
  revert lk. induction es1 as [|[t e] es1 IH]; intros lk Hsp; [exact I|].
  destruct e as [query|id|rid r|i]; cbn [app spaced] in Hsp |- *.
  - destruct Hsp as [Hgap Hsp]. split; [exact Hgap|]. exact (IH _ Hsp).
  - exact (IH _ Hsp).
  - exact (IH _ Hsp).
  - exact (IH _ Hsp).
Qed.

Lemma lastKeystroke_snoc (es : list (N * event)) (lk : option (N * string))
    (t : N) (query : string) :
  lastKeystroke lk (es ++ [(t, Key query)]) = Some (t, query).
Proof.
  revert lk. induction es as [|[t0 e] es IH]; intros lk; [reflexivity|].
  destruct e; cbn [app lastKeystroke]; apply IH.
Qed.

Lemma endTime_snoc (es : list (N * event)) (last t : N) (e : event) :
  endTime last (es ++ [(t, e)]) = t.
Proof.
  revert last. induction es as [|[t0 e0] es IH]; intros last; [reflexivity|].
  cbn [app endTime]. apply IH.
Qed.

(** C4 (as amended). Take a field with no timeout pending and any trace in
    which every keystroke leaves a query of 3 characters or more and comes
    less than 400 ms after the keystroke before it. Each keystroke of the
    trace cancels the pending timeout and schedules a new one: right after
    it, the one timeout pending is the one of that keystroke, due 400 ms
    later. So the requests sent during the trace, together with the one
    still scheduled at its end, are at most one, and that one is for the
    query of the last keystroke. *)
Theorem debounce_burst (last : N) (f f' : Field) (es : list (N * event)) :
  timers f = [] -> longQueries es -> spaced None es ->
  run last f es = Some f' ->
  (forall es1 t query es2,
     es = (es1 ++ (t, Key query) :: es2)%list ->
     exists g id,
       run last f (es1 ++ [(t, Key query)]) = Some g /\
       timers g = [{| timer_id := id; deadline := (t + DEBOUNCE)%N;
                      callback_query := query |}] /\
       timerRef g = Some id) /\
  exists cs, calls f' = (calls f ++ cs)%list /\
    (cs ++ map callback_query (timers f'))%list =
      match lastKeystroke None es with
      | Some (_, query) => [query]
      | None => []
      end /\
    List.length cs + List.length (timers f') <= 1.
Proof.
  intros Htm Hlong Hsp Hrun. split.
  - intros es1 t query es2 ->.
    change (es1 ++ (t, Key query) :: es2)%list
      with (es1 ++ [(t, Key query)] ++ es2)%list in Hrun, Hsp, Hlong.
    rewrite app_assoc in Hrun, Hsp, Hlong.
    rewrite run_app in Hrun.
    destruct (run last f (es1 ++ [(t, Key query)])) as [g|] eqn:Hg; [|discriminate].
    destruct (burstInv_run (es1 ++ [(t, Key query)]) None last [] f f g)
      as (cs & _ & Hinv); try assumption.
    + now split.
    + now rewrite app_nil_r.
    + exact (spaced_app _ _ _ Hsp).
    + intros t' q' Hin. apply (Hlong t' q'). apply in_or_app. now left.
    + rewrite lastKeystroke_snoc, endTime_snoc in Hinv. cbn in Hinv.
      destruct Hinv as [(_ & id & Htimers & Href)|(_ & _ & Hlate)].
      * exists g, id. now repeat split.
      * unfold DEBOUNCE in Hlate. lia.
  - destruct (burstInv_run es None last [] f f f') as (cs & Hcalls & Hinv);
      try assumption.
    + now split.
    + now rewrite app_nil_r.
    + exists cs. split; [exact Hcalls|].
      destruct (lastKeystroke None es) as [[k query]|]; cbn in Hinv.
      * destruct Hinv as [(-> & id & -> & _)|(-> & -> & _)]; cbn; split;
          (reflexivity || lia).
      * destruct Hinv as [-> ->]. cbn. split; (reflexivity || lia).
Qed.

End GeocodeTheory.

Section GeocodeTraces.
Import Js Geocode.

Lemma searchingAus_run :
  run parseCoordinate 0 init
    [(0%N, Key "aus"); (400%N, TimerFires 1%positive)]
  = Some searchingAus.
Proof. reflexivity. Qed.

(** C2 at the field [searchingAus] and the query "au". *)
Lemma short_query_no_call_witness :
  String.length "au" < 3 /\
  exists f', step parseCoordinate 450 searchingAus (Key "au") = Some f' /\
    suggestions f' = [] /\
    calls f' = calls searchingAus /\ inflight f' = inflight searchingAus /\
    timers f' = timers searchingAus /\ timerRef f' = timerRef searchingAus.
Proof.
  assert (H : String.length "au" < 3) by (cbn; lia).
  split; [exact H|].
  exact (short_query_no_call parseCoordinate 450 "au" searchingAus H).
Defined.

(** C1, the claim as stated, fails: "aus" is typed and sent, "denv" is
    typed and sent before the response to "aus" is back, the response to
    "denv" arrives first and the response to "aus" second. The list left on
    the screen is the one for "aus", not the one for "denv". *)
Lemma stale_response_overwrites :
  run parseCoordinate 0 init crossingTrace = Some afterCrossing /\
  calls afterCrossing = ["aus"; "denv"] /\
  suggestions afterCrossing = map (toSuggestion parseCoordinate) [austin] /\
  suggestions afterCrossing <> map (toSuggestion parseCoordinate) [denver].
Proof.
  split; [vm_compute; reflexivity|]. split; [reflexivity|]. split; [reflexivity|].
  intros H. apply (f_equal (map Suggestion.name)) in H. discriminate H.
Qed.

(** C1 (as amended) on the trace above, from the state at mount. *)
Lemma last_resolved_wins_witness :
  run parseCoordinate 0 init [] = Some init /\
  (endTime 0 [] <= 0)%N /\
  3 <= String.length "aus" /\ 3 <= String.length "denv" /\
  (0 + DEBOUNCE <= 400)%N /\ (400 <= 450)%N /\ (450 + DEBOUNCE <= 850)%N /\
  (850 <= 900)%N /\ (900 <= 1500)%N /\
  exists f',
    run parseCoordinate 0 init
      ([] ++
       [ (0%N, Key "aus"); (400%N, TimerFires (next_timer init));
         (450%N, Key "denv"); (850%N, TimerFires (Pos.succ (next_timer init)));
         (900%N, Settles (S (List.length (calls init))) (Json [denver]));
         (1500%N, Settles (List.length (calls init)) (Json [austin])) ]) = Some f' /\
    suggestions f' = map (toSuggestion parseCoordinate) [austin] /\
    calls f' = (calls init ++ ["aus"; "denv"])%list.
Proof.
  assert (H0 : run parseCoordinate 0 init [] = Some init) by reflexivity.
  assert (H1 : (endTime 0 [] <= 0)%N) by (cbn; lia).
  assert (H2 : 3 <= String.length "aus") by (cbn; lia).
  assert (H3 : 3 <= String.length "denv") by (cbn; lia).
  assert (H4 : (0 + DEBOUNCE <= 400)%N) by (unfold DEBOUNCE; lia).
  assert (H5 : (400 <= 450)%N) by lia.
  assert (H6 : (450 + DEBOUNCE <= 850)%N) by (unfold DEBOUNCE; lia).
  assert (H7 : (850 <= 900)%N) by lia.
  assert (H8 : (900 <= 1500)%N) by lia.
  repeat (split; [assumption|]).
  exact (last_resolved_wins parseCoordinate [] init "aus" "denv" [austin] [denver]
           0 400 450 850 900 1500 H0 H1 H2 H3 H4 H5 H6 H7 H8).
Defined.

(** C10 on a trace: "aus" at 0, "au" at 300; the timeout of "aus" fires at
    400 all the same, and its results fill the list the second keystroke
    had emptied. *)
Lemma short_query_keeps_timer_witness :
  run parseCoordinate 0 init [] = Some init /\
  (endTime 0 [] <= 0)%N /\
  3 <= String.length "aus" /\ String.length "au" < 3 /\
  (0 <= 300)%N /\ (300 < 0 + DEBOUNCE)%N /\ (0 + DEBOUNCE <= 400)%N /\
  (400 <= 700)%N /\
  exists f2 f3 f4,
    run parseCoordinate 0 init ([] ++ [(0%N, Key "aus"); (300%N, Key "au")])
      = Some f2 /\
    suggestions f2 = [] /\
    timers f2 = [{| timer_id := next_timer init; deadline := (0 + DEBOUNCE)%N;
                    callback_query := "aus" |}] /\
    step parseCoordinate 400 f2 (TimerFires (next_timer init)) = Some f3 /\
    calls f3 = (calls init ++ ["aus"])%list /\
    step parseCoordinate 700 f3 (Settles (List.length (calls init)) (Json [austin]))
      = Some f4 /\
    suggestions f4 = map (toSuggestion parseCoordinate) [austin].
Proof.
  assert (H0 : run parseCoordinate 0 init [] = Some init) by reflexivity.
  assert (H1 : (endTime 0 [] <= 0)%N) by (cbn; lia).
  assert (H2 : 3 <= String.length "aus") by (cbn; lia).
  assert (H3 : String.length "au" < 3) by (cbn; lia).
  assert (H4 : (0 <= 300)%N) by lia.
  assert (H5 : (300 < 0 + DEBOUNCE)%N) by (unfold DEBOUNCE; lia).
  assert (H6 : (0 + DEBOUNCE <= 400)%N) by (unfold DEBOUNCE; lia).
  assert (H7 : (400 <= 700)%N) by lia.
  repeat (split; [assumption|]).
  exact (short_query_keeps_timer parseCoordinate [] init "aus" "au" [austin]
           0 300 400 700 H0 H1 H2 H3 H4 H5 H6 H7).
Defined.

Lemma one_timeout_pending_witness :
  run parseCoordinate 0 init [(0%N, Key "aus"); (150%N, Key "aust")]
  = Some {| suggestions := []; searching := false; timerRef := Some 2%positive;
            timers := [{| timer_id := 2%positive; deadline := 550%N;
                          callback_query := "aust" |}];
            next_timer := 3%positive; inflight := []; calls := [] |} /\
  List.length [{| timer_id := 2%positive; deadline := 550%N;
                  callback_query := "aust" |}] <= 1.
Proof.
  assert (H : run parseCoordinate 0 init [(0%N, Key "aus"); (150%N, Key "aust")]
    = Some {| suggestions := []; searching := false; timerRef := Some 2%positive;
              timers := [{| timer_id := 2%positive; deadline := 550%N;
                            callback_query := "aust" |}];
              next_timer := 3%positive; inflight := []; calls := [] |})
    by (vm_compute; reflexivity).
  split; [exact H|].
  exact (proj1 (one_timeout_pending parseCoordinate _ _ H)).
Defined.

(** C4, the claim as stated, fails: three keystrokes 300 ms apart, the
    second one leaving a query of 2 characters. It does not cancel the
    timeout of the first, which fires at 400 ms; the third keystroke
    schedules another, which fires at 1000 ms. One burst, two requests. *)
Lemma burst_sends_two_requests :
  timers init = [] /\
  spaced None burstWithShortQuery /\
  run parseCoordinate 0 init burstWithShortQuery = Some afterBurstWithShortQuery /\
  List.length (calls afterBurstWithShortQuery) = 2.
Proof.
  split; [reflexivity|]. split.
  - cbn. unfold DEBOUNCE. repeat split; lia.
  - split; [vm_compute; reflexivity|reflexivity].
Qed.

(** C4 (as amended) on a burst of three keystrokes of 3 characters or
    more. *)
Lemma debounce_burst_witness :
  timers init = [] /\
  longQueries burstOfLongQueries /\
  spaced None burstOfLongQueries /\
  run parseCoordinate 0 init burstOfLongQueries = Some afterBurstOfLongQueries /\
  exists cs,
    calls afterBurstOfLongQueries = (calls init ++ cs)%list /\
    (cs ++ map callback_query (timers afterBurstOfLongQueries))%list =
      match lastKeystroke None burstOfLongQueries with
      | Some (_, query) => [query]
      | None => []
      end /\
    List.length cs + List.length (timers afterBurstOfLongQueries) <= 1.
Proof.
  assert (H0 : timers init = []) by reflexivity.
  assert (H1 : longQueries burstOfLongQueries).
  { intros t q [H|[H|[H|[H|[]]]]]; inversion H; subst; cbn; lia. }
  assert (H2 : spaced None burstOfLongQueries).
  { cbn. unfold DEBOUNCE. repeat split; lia. }
  assert (H3 : run parseCoordinate 0 init burstOfLongQueries
               = Some afterBurstOfLongQueries) by (vm_compute; reflexivity).
  repeat (split; [assumption|]).
  exact (proj2 (debounce_burst parseCoordinate 0 init afterBurstOfLongQueries
                  burstOfLongQueries H0 H1 H2 H3)).
Defined.

End GeocodeTraces.

Section OfflineTheory.
Import Js Offline.

(** In this variant the minimum length of a query is 2: a shorter query
    empties the suggestion list, a query of 2 characters is searched. *)
Theorem offline_min_length (query : string) (f : Field) :
  String.length query < 2 -> suggestions (geocodeCity query f) = [].
Proof.
  intros Hlen. unfold geocodeCity.
  destruct (Nat.ltb_spec (String.length query) 2) as [_|Hge]; [reflexivity|lia].
Qed.

Lemma offline_min_length_witness :
  String.length "t" < 2 /\
  suggestions (geocodeCity "t" {| suggestions := []; searching := false |}) = [].
Proof.
  assert (H : String.length "t" < 2) by (cbn; lia).
  split; [exact H|]. exact (offline_min_length "t" _ H).
Defined.

Example offline_two_characters :
  map name (suggestions (geocodeCity "tx" {| suggestions := []; searching := false |}))
  = [ "Austin, TX"; "Big Bend National Park, TX"; "El Paso, TX";
      "Houston, TX"; "Dallas, TX" ].
Proof. vm_compute. reflexivity. Qed.

End OfflineTheory.

Section MarkerTheory.
Import Js Marker.

(** ** The entries of the tables *)

(** The icon of each site type and of the two ends of the route, the
    colour of each level of cell service and of each difficulty, and the
    defaults for a site that has no type, no cell service, no difficulty. *)
Theorem marker_tables :
  getCampsiteIcon (Some "dispersed") = Val (createIcon "orange") /\
  getCampsiteIcon (Some "campground") = Val (createIcon "blue") /\
  getCampsiteIcon (Some "rv_park") = Val (createIcon "violet") /\
  getCampsiteIcon (Some "start") = Val (createIcon "green") /\
  getCampsiteIcon (Some "end") = Val (createIcon "red") /\
  getCampsiteIcon None = Val (createIcon "grey") /\
  getCellServiceColor (Some "excellent") = Val "#22c55e" /\
  getCellServiceColor (Some "good") = Val "#84cc16" /\
  getCellServiceColor (Some "weak") = Val "#eab308" /\
  getCellServiceColor (Some "none") = Val "#ef4444" /\
  getCellServiceColor None = Val "#6b7280" /\
  getDifficultyColor (Some "easy") = Val "#22c55e" /\
  getDifficultyColor (Some "moderate") = Val "#eab308" /\
  getDifficultyColor (Some "difficult") = Val "#ef4444" /\
  getDifficultyColor None = Val "#6b7280".
Proof. repeat split. Qed.

(** ** Keys that are in no table *)

Lemma own_not_key {A} (obj : list (string * A)) (key : string) :
  ~ In key (keys obj) -> own obj key = None.
Proof.
  induction obj as [|[k v] obj IH]; cbn; [reflexivity|].
  intros Hnot. destruct (String.eqb_spec k key) as [->|_]; [tauto|].
  apply IH. tauto.
Qed.

Lemma hasKey_In (ks : list string) (key : string) :
  hasKey ks key = true <-> In key ks.
Proof.
  unfold hasKey. rewrite existsb_exists. split.
  - intros (k & Hin & Heq). apply String.eqb_eq in Heq. now subst.
  - intros Hin. exists key. split; [exact Hin|apply String.eqb_refl].
Qed.

Lemma get_unknown {A} (obj : list (string * A)) (key : string) :
  ~ In key (keys obj) -> ~ In key Object_prototype -> get obj key = Undefined.
Proof.
  intros Hown Hproto. unfold get. rewrite (own_not_key obj key Hown).
  destruct (hasKey Object_prototype key) eqn:E; [|reflexivity].
  apply hasKey_In in E. contradiction.
Qed.

(** A key that is in neither the table nor [Object.prototype] gets the
    default: the grey icon, the colour #6b7280. *)
Theorem unknown_key_default (key : string) :
  ~ In key Object_prototype ->
  (~ In key (keys icons) -> getCampsiteIcon (Some key) = Val (createIcon "grey")) /\
  (~ In key (keys cellServiceColors) -> getCellServiceColor (Some key) = Val "#6b7280") /\
  (~ In key (keys difficultyColors) -> getDifficultyColor (Some key) = Val "#6b7280").
Proof.
  intros Hproto. repeat split; intros Hown.
  - unfold getCampsiteIcon. cbn [toPropertyKey]. now rewrite (get_unknown icons key).
  - unfold getCellServiceColor. cbn [toPropertyKey].
    now rewrite (get_unknown cellServiceColors key).
  - unfold getDifficultyColor. cbn [toPropertyKey].
    now rewrite (get_unknown difficultyColors key).
Qed.

Lemma unknown_key_default_witness :
  ~ In "other" Object_prototype /\
  ~ In "other" (keys icons) /\
  ~ In "other" (keys cellServiceColors) /\
  ~ In "other" (keys difficultyColors) /\
  getCampsiteIcon (Some "other") = Val (createIcon "grey") /\
  getCellServiceColor (Some "other") = Val "#6b7280" /\
  getDifficultyColor (Some "other") = Val "#6b7280".
Proof.
  assert (H0 : ~ In "other" Object_prototype)
    by (cbn; intuition discriminate).
  assert (H1 : ~ In "other" (keys icons)) by (cbn; intuition discriminate).
  assert (H2 : ~ In "other" (keys cellServiceColors))
    by (cbn; intuition discriminate).
  assert (H3 : ~ In "other" (keys difficultyColors))
    by (cbn; intuition discriminate).
  repeat (split; [assumption|]).
  destruct (unknown_key_default "other" H0) as (K1 & K2 & K3).
  split; [exact (K1 H1)|]. split; [exact (K2 H2)|exact (K3 H3)].
Defined.

(** ** Keys that name a member of [Object.prototype] *)

Lemma get_inherited {A} (obj : list (string * A)) (key : string) :
  ~ In key (keys obj) -> In key Object_prototype -> get obj key = ProtoMember key.
Proof.
  intros Hown Hproto. unfold get. rewrite (own_not_key obj key Hown).
  apply hasKey_In in Hproto. now rewrite Hproto.
Qed.

(** C5 fails on such keys. A site whose [type], [cell_service] or
    [difficulty] is the name of a member every object inherits, such as
    "constructor" or "toString", is not given the default: the lookup finds
    the inherited member, which is truthy, and [||] returns it. The site is
    then drawn with something that is no icon, in something that is no
    colour. *)
Theorem inherited_key_is_not_default :
  getCampsiteIcon (Some "constructor") = ProtoMember "constructor" /\
  getCellServiceColor (Some "constructor") = ProtoMember "constructor" /\
  getDifficultyColor (Some "toString") = ProtoMember "toString" /\
  forall key, In key Object_prototype ->
    getCampsiteIcon (Some key) = ProtoMember key /\
    getCellServiceColor (Some key) = ProtoMember key /\
    getDifficultyColor (Some key) = ProtoMember key.
Proof.
  split; [reflexivity|]. split; [reflexivity|]. split; [reflexivity|].
  intros key Hin.
  unfold getCampsiteIcon, getCellServiceColor, getDifficultyColor.
  cbn [toPropertyKey].
  repeat split; rewrite get_inherited; trivial;
    cbn in Hin |- *; intuition (subst; discriminate).
Qed.

End MarkerTheory.

Section TripMapTheory.
Import TripMap.

Variable parseFloat : string -> float.

Local Abbreviation start := (TripMap.start parseFloat).
Local Abbreviation dest := (TripMap.dest parseFloat).
Local Abbreviation allPoints := (TripMap.allPoints parseFloat).
Local Abbreviation getRoutePositions := (TripMap.getRoutePositions parseFloat).

(** ** The route *)

(** C3. When the route geometry supplied is not empty, the positions of the
    route are exactly its pairs, each with its axes swapped from (lon, lat)
    to (lat, lon): as many, in the same order, with the same numbers. When
    it is empty or absent, they are the two positions start, destination,
    in that order. *)
Theorem getRoutePositions_spec (p : Props) :
  (geometryOf p <> [] ->
     getRoutePositions p = map toRenderOrder (geometryOf p) /\
     List.length (getRoutePositions p) = List.length (geometryOf p) /\
     forall i lon lat,
       nth_error (geometryOf p) i = Some (lon, lat) ->
       nth_error (getRoutePositions p) i = Some (lat, lon)) /\
  (geometryOf p = [] -> getRoutePositions p = [start p; dest p]).
Proof.
  unfold TripMap.getRoutePositions, geometryOf.
  destruct (tripPlan p) as [plan|]; [|split; [congruence|reflexivity]].
  destruct (route_geometry plan) as [geometry|]; [|split; [congruence|reflexivity]].
  destruct geometry as [|c g]; [split; [congruence|reflexivity]|].
  split; [intros _|discriminate].
  cbn [List.length Nat.ltb Nat.leb].
  assert (Heq : map (fun coord : float * float => (snd coord, fst coord)) (c :: g)
                = map toRenderOrder (c :: g)).
  { apply map_ext. now intros [lon lat]. }
  rewrite Heq. split; [reflexivity|]. split; [apply length_map|].
  intros i lon lat Hnth. rewrite nth_error_map, Hnth. reflexivity.
Qed.

(** ** The bounds *)




End TripMapTheory.

Section TripMapExamples.
Import TripMap.

Example route_of_geometry :
  getRoutePositions parseCoordinate
    (austinToDenver (Some (planWithGeometry [(-97.74, 30.27); (-104.99, 39.74)]%float)))
  = [(30.27, -97.74); (39.74, -104.99)]%float.
Proof. reflexivity. Qed.

Example route_of_empty_geometry :
  getRoutePositions parseCoordinate (austinToDenver (Some (planWithGeometry [])))
  = [(30.27, -97.74); (39.74, -104.99)]%float.
Proof. reflexivity. Qed.

Example route_without_plan :
  getRoutePositions parseCoordinate (austinToDenver None)
  = [(30.27, -97.74); (39.74, -104.99)]%float.
Proof. reflexivity. Qed.

(** C3 on the two examples of the specification. *)
Lemma getRoutePositions_spec_witness :
  TripMap.geometryOf
    (austinToDenver (Some (planWithGeometry [(-97.74, 30.27); (-104.99, 39.74)]%float)))
    <> [] /\
  TripMap.geometryOf (austinToDenver None) = [] /\
  getRoutePositions parseCoordinate
    (austinToDenver (Some (planWithGeometry [(-97.74, 30.27); (-104.99, 39.74)]%float)))
  = map toRenderOrder [(-97.74, 30.27); (-104.99, 39.74)]%float /\
  getRoutePositions parseCoordinate (austinToDenver None)
  = [start parseCoordinate (austinToDenver None);
     dest parseCoordinate (austinToDenver None)].
Proof.
  assert (H1 : TripMap.geometryOf
    (austinToDenver (Some (planWithGeometry [(-97.74, 30.27); (-104.99, 39.74)]%float)))
    <> []) by discriminate.
  assert (H2 : TripMap.geometryOf (austinToDenver None) = []) by reflexivity.
  split; [exact H1|]. split; [exact H2|]. split.
  - exact (proj1 (proj1 (getRoutePositions_spec parseCoordinate _) H1)).
  - exact (proj2 (getRoutePositions_spec parseCoordinate _) H2).
Defined.


(** With start and destination at the same place and no plan, the bounds
    handed to the map are that place twice, unwidened. *)
Example zero_extent_bounds_unwidened :
  FitBounds (Some (allPoints parseCoordinate samePlace)) =
    Some {| bounds := [(30.27, -97.74); (30.27, -97.74)]%float;
            padding := (50, 50) |} /\
  zeroExtent [(30.27, -97.74); (30.27, -97.74)]%float.
Proof.
  split; [reflexivity|].
  intros x y Hx Hy. cbn in Hx, Hy.
  destruct Hx as [<-|[<-|[]]]; destruct Hy as [<-|[<-|[]]]; reflexivity.
Qed.


End TripMapExamples.

Section PlannerTheory.
Import Js Planner.

Variable parseFloat : string -> float.
Variable numberToString : float -> string.

Local Abbreviation step := (Planner.step parseFloat numberToString).
Local Abbreviation run := (Planner.run parseFloat numberToString).

(** ** Failed searches *)

(** C8. When the request of a search field fails, by the network or in
    parsing, the callback sets the suggestion list of the field to the empty
    list and lowers its searching flag. Nothing else happens: the
    application goes on, and its error message, its plan, its loading flag
    and its selection are as before. *)
Theorem geocode_failure_swallowed (t : N) (a : App) (w : which) (rid : nat)
    (r : Geocode.response) :
  Geocode.failed r = true ->
  (exists rq, In rq (Geocode.inflight (search w a)) /\ Geocode.request_id rq = rid) ->
  exists a', step t a (Search w (Geocode.Settles rid r)) = Some a' /\
    Geocode.suggestions (search w a') = [] /\
    Geocode.searching (search w a') = false /\
    error a' = error a /\ loading a' = loading a /\
    tripPlan a' = tripPlan a /\ selectedCampsite a' = selectedCampsite a.
Proof.
  intros Hfail Hin. cbn [Planner.step].
  rewrite (step_settles parseFloat t rid r (search w a) Hin).
  eexists. split; [reflexivity|].
  destruct r as [| |data]; [| |discriminate Hfail]; destruct w; repeat split.
Qed.

(** ** The selection *)

Lemma selection_stays_none (t : N) (a a' : App) (e : event) :
  selectedCampsite a = None -> (forall i, e <> ClickSite i) ->
  step t a e = Some a' -> selectedCampsite a' = None.
Proof.
  intros Hnone Hne Hstep. destruct e as [w ge|v|v| |r|i|]; cbn [Planner.step] in Hstep.
  - destruct (Geocode.step parseFloat t (search w a) ge) as [fld|]; [|discriminate].
    destruct ge as [query|id|rid r|i].
    + now injection Hstep as <-.
    + now injection Hstep as <-.
    + now injection Hstep as <-.
    + destruct (nth_error _ i); [|discriminate]. now injection Hstep as <-.
  - now injection Hstep as <-.
  - now injection Hstep as <-.
  - destruct (loading a); [discriminate|]. now injection Hstep as <-.
  - destruct (loading a); [|discriminate]. injection Hstep as <-.
    destruct r; exact Hnone.
  - now destruct (Hne i).
  - destruct (selectedCampsite a); [|discriminate]. now injection Hstep as <-.
Qed.

Lemma selection_stays_none_run (es : list (N * event)) (last : N) (a a' : App) :
  selectedCampsite a = None -> noSiteClicked es ->
  run last a es = Some a' -> selectedCampsite a' = None.
Proof.
  revert last a. induction es as [|[t e] es IH]; intros last a Hnone Hno Hrun;
    cbn [Planner.run] in Hrun.
  - now injection Hrun as <-.
  - destruct (last <=? t)%N; [|discriminate].
    destruct (step t a e) as [a1|] eqn:Hstep; [|discriminate].
    apply (IH t a1); [|intros t' i Hin; apply (Hno t' i); now right|exact Hrun].
    apply (selection_stays_none t a a1 e Hnone); [|exact Hstep].
    intros i ->. apply (Hno t i). now left.
Qed.

Lemma run_snoc (es : list (N * event)) (last t : N) (a a' : App) (e : event) :
  run last a (es ++ [(t, e)]) = Some a' ->
  exists a1, run last a es = Some a1 /\ step t a1 e = Some a'.
Proof.
  revert last a. induction es as [|[t0 e0] es IH]; intros last a Hrun;
    cbn [app Planner.run] in Hrun.
  - destruct (last <=? t)%N; [|discriminate].
    destruct (step t a e) as [a1|] eqn:Hstep; [|discriminate].
    exists a. split; [reflexivity|]. now rewrite Hstep.
  - cbn [Planner.run]. destruct (last <=? t0)%N; [|discriminate].
    destruct (step t0 a e0) as [a1|]; [|discriminate].
    exact (IH t0 a1 Hrun).
Qed.

(** C6 (as amended). The selection is reset when a plan is requested, not
    when its result arrives: the click on Plan Trip sets it to none, and if
    no site is clicked from then until the request settles, the selection
    is none when the new plan is stored. *)
Theorem plan_request_resets_selection (last t0 t1 : N) (a a' : App)
    (es : list (N * event)) (r : planResponse) :
  noSiteClicked es ->
  run last a ((t0, ClickPlan) :: es ++ [(t1, PlanSettles r)]) = Some a' ->
  step t0 a ClickPlan = Some (planTripStart a) /\
  selectedCampsite (planTripStart a) = None /\
  selectedCampsite a' = None /\
  loading a' = false /\
  match r with
  | PlanOk data => tripPlan a' = Some data
  | _ => True
  end.
Proof.
  intros Hno Hrun. cbn [Planner.run] in Hrun.
  destruct (last <=? t0)%N; [|discriminate].
  destruct (step t0 a ClickPlan) as [a1|] eqn:Hclick; [|discriminate].
  cbn [Planner.step] in Hclick. destruct (loading a) eqn:Hload; [discriminate|].
  injection Hclick as <-.
  split; [reflexivity|]. split; [reflexivity|]. split.
  - apply (selection_stays_none_run (es ++ [(t1, PlanSettles r)]) t0
             (planTripStart a) a' eq_refl); [|exact Hrun].
    intros t i Hin. apply in_app_or in Hin. destruct Hin as [Hin|[Heq|[]]].
    + exact (Hno t i Hin).
    + discriminate Heq.
  - apply run_snoc in Hrun. destruct Hrun as (a2 & _ & Hstep).
    cbn [Planner.step] in Hstep. destruct (loading a2); [|discriminate].
    injection Hstep as <-. destruct r; split; reflexivity || exact I.
Qed.

(** The selection is one slot: of two clicks the later one is selected,
    and the Clear Selection button empties the slot. *)
Theorem selection_last_write_wins (t1 t2 t3 : N) (a : App) (plan : TripPlan)
    (i j : nat) (si sj : Site.t) :
  tripPlan a = Some plan ->
  nth_error (displayedSites plan) i = Some si ->
  nth_error (displayedSites plan) j = Some sj ->
  (t1 <= t2)%N -> (t2 <= t3)%N ->
  exists a2 a3,
    run t1 a [(t1, ClickSite i); (t2, ClickSite j)] = Some a2 /\
    selectedCampsite a2 = Some sj /\
    run t1 a [(t1, ClickSite i); (t2, ClickSite j); (t3, ClearSelection)] = Some a3 /\
    selectedCampsite a3 = None.
Proof.
  intros Hplan Hi Hj H12 H23.
  exists (handleCampsiteSelect sj (handleCampsiteSelect si a)),
         (setSelectedCampsite None
            (handleCampsiteSelect sj (handleCampsiteSelect si a))).
  cbn [Planner.run Planner.step]. rewrite Hplan, Hi.
  rewrite (proj2 (N.leb_le t1 t1) (N.le_refl t1)).
  rewrite (proj2 (N.leb_le t1 t2) H12), (proj2 (N.leb_le t2 t3) H23).
  cbn. rewrite Hplan, Hj. cbn. repeat split.
Qed.

(** A plan request that fails leaves one message in [error] and the plan
    of before, if any, in place. *)
Theorem plan_failure_keeps_results (t : N) (a : App) (r : planResponse)
    (message : string) :
  loading a = true -> failureMessage r = Some message ->
  exists a', step t a (PlanSettles r) = Some a' /\
    error a' = Some message /\ tripPlan a' = tripPlan a /\
    loading a' = false /\ selectedCampsite a' = selectedCampsite a.
Proof.
  intros Hload Hmsg. cbn [Planner.step]. rewrite Hload. eexists. split; [reflexivity|].
  destruct r as [data| |m]; cbn in Hmsg; [discriminate| |];
    injection Hmsg as <-; repeat split.
Qed.

(** What happens to one search field leaves the other as it is. *)
Theorem search_fields_independent (t : N) (a a' : App) (w : which)
    (e : Geocode.event) :
  step t a (Search w e) = Some a' -> search (other w) a' = search (other w) a.
Proof.
  cbn [Planner.step]. destruct (Geocode.step parseFloat t (search w a) e) as [fld|];
    [|discriminate].
  destruct e as [query|id|rid r|i].
  - intros [= <-]. now destruct w.
  - intros [= <-]. now destruct w.
  - intros [= <-]. now destruct w.
  - destruct (nth_error _ i); [|discriminate]. intros [= <-]. now destruct w.
Qed.

End PlannerTheory.

Section PlannerTraces.
Import Js Planner.

Lemma app_searchingAus_run :
  run parseCoordinate showCoordinate 0 init
    [ (0%N, Search StartField (Geocode.Key "aus"));
      (400%N, Search StartField (Geocode.TimerFires 1%positive)) ]
  = Some searchingAus.
Proof. reflexivity. Qed.

(** C8 at a network error of the request for "aus". *)
Lemma geocode_failure_swallowed_witness :
  Geocode.failed Geocode.NetworkError = true /\
  (exists rq, In rq (Geocode.inflight (search StartField searchingAus)) /\
              Geocode.request_id rq = 0) /\
  exists a',
    step parseCoordinate showCoordinate 2000 searchingAus
      (Search StartField (Geocode.Settles 0 Geocode.NetworkError)) = Some a' /\
    Geocode.suggestions (search StartField a') = [] /\
    Geocode.searching (search StartField a') = false /\
    error a' = error searchingAus /\ loading a' = loading searchingAus /\
    tripPlan a' = tripPlan searchingAus /\
    selectedCampsite a' = selectedCampsite searchingAus.
Proof.
  assert (H1 : Geocode.failed Geocode.NetworkError = true) by reflexivity.
  assert (H2 : exists rq, In rq (Geocode.inflight (search StartField searchingAus)) /\
                          Geocode.request_id rq = 0).
  { eexists. split; [left; reflexivity|reflexivity]. }
  split; [exact H1|]. split; [exact H2|].
  exact (geocode_failure_swallowed parseCoordinate showCoordinate 2000 searchingAus
           StartField 0 Geocode.NetworkError H1 H2).
Defined.

(** C6, the claim as stated, fails: with plan A on the screen, Plan Trip
    is clicked again; while the request is pending, the card of a campsite
    of plan A is clicked; then plan B arrives. Plan B is stored, and the
    campsite of plan A stays selected. *)
Lemma stale_selection_survives :
  exists a',
    run parseCoordinate showCoordinate 0 init
      [ (0%N, ClickPlan); (900%N, PlanSettles (PlanOk planA));
        (5000%N, ClickPlan); (5200%N, ClickSite 0);
        (6000%N, PlanSettles (PlanOk planB)) ] = Some a' /\
    tripPlan a' = Some planB /\
    selectedCampsite a' = Some pineFlat /\
    ~ In (Site.id pineFlat) (siteIds planB).
Proof.
  exists (setSelectedCampsite (Some pineFlat) (setTripPlan (Some planB) init)).
  split; [vm_compute; reflexivity|]. split; [reflexivity|]. split; [reflexivity|].
  intros [H|[]]. discriminate H.
Qed.

(** C6 (as amended): with a campsite of plan A selected, a plan is
    requested, no site is clicked, and plan B arrives. *)
Lemma plan_request_resets_selection_witness :
  noSiteClicked [(5200%N, EditMaxDetour "40")] /\
  run parseCoordinate showCoordinate 0
    (setSelectedCampsite (Some pineFlat) (setTripPlan (Some planA) init))
    ((5000%N, ClickPlan) :: [(5200%N, EditMaxDetour "40")]
       ++ [(6000%N, PlanSettles (PlanOk planB))])
  = Some (setMaxDetour "40" (setTripPlan (Some planB) init)) /\
  selectedCampsite (setMaxDetour "40" (setTripPlan (Some planB) init)) = None /\
  tripPlan (setMaxDetour "40" (setTripPlan (Some planB) init)) = Some planB.
Proof.
  assert (H1 : noSiteClicked [(5200%N, EditMaxDetour "40")]).
  { intros t i [H|[]]. discriminate H. }
  assert (H2 : run parseCoordinate showCoordinate 0
    (setSelectedCampsite (Some pineFlat) (setTripPlan (Some planA) init))
    ((5000%N, ClickPlan) :: [(5200%N, EditMaxDetour "40")]
       ++ [(6000%N, PlanSettles (PlanOk planB))])
    = Some (setMaxDetour "40" (setTripPlan (Some planB) init))) by reflexivity.
  split; [exact H1|]. split; [exact H2|].
  pose proof (plan_request_resets_selection parseCoordinate showCoordinate
                0 5000 6000 _ _ _ (PlanOk planB) H1 H2) as (_ & _ & H3 & _ & H4).
  split; [exact H3|exact H4].
Defined.

Lemma selection_last_write_wins_witness :
  tripPlan (setTripPlan (Some View.planWithSuggestion) init)
  = Some View.planWithSuggestion /\
  nth_error (displayedSites View.planWithSuggestion) 0 = Some pineFlat /\
  nth_error (displayedSites View.planWithSuggestion) 1 = Some mesaCamp /\
  (10 <= 20)%N /\ (20 <= 30)%N /\
  exists a2 a3,
    run parseCoordinate showCoordinate 10
      (setTripPlan (Some View.planWithSuggestion) init)
      [(10%N, ClickSite 0); (20%N, ClickSite 1)] = Some a2 /\
    selectedCampsite a2 = Some mesaCamp /\
    run parseCoordinate showCoordinate 10
      (setTripPlan (Some View.planWithSuggestion) init)
      [(10%N, ClickSite 0); (20%N, ClickSite 1); (30%N, ClearSelection)] = Some a3 /\
    selectedCampsite a3 = None.
Proof.
  assert (H0 : tripPlan (setTripPlan (Some View.planWithSuggestion) init)
               = Some View.planWithSuggestion) by reflexivity.
  assert (H1 : nth_error (displayedSites View.planWithSuggestion) 0 = Some pineFlat)
    by reflexivity.
  assert (H1' : nth_error (displayedSites View.planWithSuggestion) 1 = Some mesaCamp)
    by reflexivity.
  assert (H2 : (10 <= 20)%N) by lia.
  assert (H3 : (20 <= 30)%N) by lia.
  repeat (split; [assumption|]).
  exact (selection_last_write_wins parseCoordinate showCoordinate 10 20 30
           _ View.planWithSuggestion 0 1 pineFlat mesaCamp H0 H1 H1' H2 H3).
Defined.

Lemma plan_failure_keeps_results_witness :
  loading (planTripStart (setTripPlan (Some planA) init)) = true /\
  failureMessage PlanNotOk = Some "Failed to plan trip" /\
  exists a',
    step parseCoordinate showCoordinate 900
      (planTripStart (setTripPlan (Some planA) init)) (PlanSettles PlanNotOk)
      = Some a' /\
    error a' = Some "Failed to plan trip" /\
    tripPlan a' = tripPlan (planTripStart (setTripPlan (Some planA) init)) /\
    loading a' = false /\
    selectedCampsite a' =
      selectedCampsite (planTripStart (setTripPlan (Some planA) init)).
Proof.
  assert (H0 : loading (planTripStart (setTripPlan (Some planA) init)) = true)
    by reflexivity.
  assert (H1 : failureMessage PlanNotOk = Some "Failed to plan trip") by reflexivity.
  split; [exact H0|]. split; [exact H1|].
  exact (plan_failure_keeps_results parseCoordinate showCoordinate 900 _
           PlanNotOk "Failed to plan trip" H0 H1).
Defined.

Lemma search_fields_independent_witness :
  step parseCoordinate showCoordinate 0 init (Search StartField (Geocode.Key "aus"))
  = Some (withSearch StartField (Geocode.geocodeCity 0 "aus" Geocode.init)
            (setCity StartField "aus" init)) /\
  search (other StartField)
    (withSearch StartField (Geocode.geocodeCity 0 "aus" Geocode.init)
       (setCity StartField "aus" init))
  = search (other StartField) init.
Proof.
  assert (H : step parseCoordinate showCoordinate 0 init
                (Search StartField (Geocode.Key "aus"))
              = Some (withSearch StartField (Geocode.geocodeCity 0 "aus" Geocode.init)
                        (setCity StartField "aus" init))) by reflexivity.
  split; [exact H|].
  exact (search_fields_independent parseCoordinate showCoordinate 0 init _
           StartField (Geocode.Key "aus") H).
Defined.

End PlannerTraces.


Section MarkerRange.
Import Js Marker.

Lemma own_In {A} (obj : list (string * A)) (key : string) (v : A) :
  own obj key = Some v -> In (key, v) obj.
Proof.
  induction obj as [|[k w] obj IH]; cbn; [discriminate|].
  destruct (String.eqb_spec k key) as [->|_].
  - intros [= ->]. now left.
  - intros H. right. now apply IH.
Qed.

Lemma get_cases {A} (obj : list (string * A)) (key : string) :
  (exists v, In (key, v) obj /\ get obj key = Val v) \/
  (In key Object_prototype /\ get obj key = ProtoMember key) \/
  get obj key = Undefined.
Proof.
  unfold get. destruct (own obj key) as [v|] eqn:Hown.
  - left. exists v. split; [now apply own_In|reflexivity].
  - destruct (hasKey Object_prototype key) eqn:Hproto.
    + right. left. split; [now apply hasKey_In|reflexivity].
    + right. now right.
Qed.

(** What a marker can be drawn with. Whatever the type of a site, and be
    it missing, [getCampsiteIcon] gives the icon of one of the six colours
    of the table or a member inherited from [Object.prototype]: it is never
    undefined, and never the gold icon, which is kept for the selected
    site. In the same way the two colour functions give one of the colours
    of their table, the grey #6b7280, or an inherited member. *)
Theorem marker_lookup_range (key : option string) :
  ((exists color, In color ["green"; "red"; "orange"; "blue"; "violet"; "grey"] /\
                  getCampsiteIcon key = Val (createIcon color)) \/
   (exists member, In member Object_prototype /\
                   getCampsiteIcon key = ProtoMember member)) /\
  getCampsiteIcon key <> Val (createIcon "gold") /\
  ((exists color, In color ["#22c55e"; "#84cc16"; "#eab308"; "#ef4444"; "#6b7280"] /\
                  getCellServiceColor key = Val color) \/
   (exists member, In member Object_prototype /\
                   getCellServiceColor key = ProtoMember member)) /\
  ((exists color, In color ["#22c55e"; "#eab308"; "#ef4444"; "#6b7280"] /\
                  getDifficultyColor key = Val color) \/
   (exists member, In member Object_prototype /\
                   getDifficultyColor key = ProtoMember member)).
Proof.
  assert (Hicon :
    (exists color, In color ["green"; "red"; "orange"; "blue"; "violet"; "grey"] /\
                   getCampsiteIcon key = Val (createIcon color)) \/
    (exists member, In member Object_prototype /\
                    getCampsiteIcon key = ProtoMember member)).
  { unfold getCampsiteIcon.
    destruct (get_cases icons (toPropertyKey key)) as [[v [Hin ->]]|[[Hin ->]| ->]].
    - left. cbn in Hin.
      repeat (destruct Hin as [Hin|Hin];
              [injection Hin as _ <-; eexists; split; [|reflexivity]; cbn; tauto|]).
      destruct Hin.
    - right. eexists. split; [exact Hin|reflexivity].
    - left. exists "grey". split; [cbn; tauto|reflexivity]. }
  split; [exact Hicon|]. split; [|split].
  - destruct Hicon as [[color [Hin ->]]|[member [_ ->]]]; [|discriminate].
    intros H. apply (f_equal (fun v => match v with
                                       | Val i => iconUrl i
                                       | _ => ""
                                       end)) in H.
    cbn in Hin, H.
    repeat (destruct Hin as [<-|Hin]; [discriminate H|]). destruct Hin.
  - unfold getCellServiceColor.
    destruct (get_cases cellServiceColors (toPropertyKey key))
      as [[v [Hin ->]]|[[Hin ->]| ->]].
    + left. cbn in Hin.
      repeat (destruct Hin as [Hin|Hin];
              [injection Hin as _ <-; eexists; split; [|reflexivity]; cbn; tauto|]).
      destruct Hin.
    + right. eexists. split; [exact Hin|reflexivity].
    + left. exists "#6b7280". split; [cbn; tauto|reflexivity].
  - unfold getDifficultyColor.
    destruct (get_cases difficultyColors (toPropertyKey key))
      as [[v [Hin ->]]|[[Hin ->]| ->]].
    + left. cbn in Hin.
      repeat (destruct Hin as [Hin|Hin];
              [injection Hin as _ <-; eexists; split; [|reflexivity]; cbn; tauto|]).
      destruct Hin.
    + right. eexists. split; [exact Hin|reflexivity].
    + left. exists "#6b7280". split; [cbn; tauto|reflexivity].
Qed.

End MarkerRange.

Section RateTheory.
Import Js Geocode Rate.

Variable parseFloat : string -> float.

Local Abbreviation step := (Geocode.step parseFloat).
Local Abbreviation run := (Geocode.run parseFloat).

(** ** The rate of the requests *)

Lemma findTimer_In (id : positive) (f : Field) (tm : Timer) :
  findTimer id f = Some tm -> In tm (timers f) /\ timer_id tm = id.
Proof.
  unfold findTimer. intros H. apply find_some in H as [Hin Heq].
  split; [exact Hin|]. now apply Pos.eqb_eq.
Qed.

Lemma tracked_fired (id : positive) (f : Field) (tm : Timer) :
  tracked f -> findTimer id f = Some tm -> dropTimer id (timers f) = [].
Proof.
  intros Htr Hfind. apply findTimer_In in Hfind as [Hin Hid].
  apply (dropTimer_tracked f id Htr). rewrite <- Hid. now apply Htr.
Qed.

(** One event keeps the invariant; a timeout that fires does so one
    debounce interval or more after the request before, and sends one
    request. *)
Lemma rateInv_step (prev : option N) (last t : N) (f f' : Field) (e : event) :
  rateInv prev last f -> (last <= t)%N -> step t f e = Some f' ->
  match e with
  | TimerFires _ =>
      match prev with
      | Some p => (p + DEBOUNCE <= t)%N
      | None => True
      end /\ rateInv (Some t) t f' /\
      List.length (calls f') = S (List.length (calls f))
  | _ => rateInv prev t f' /\ List.length (calls f') = List.length (calls f)
  end.
Proof.
  intros [Htr Hprev] Hle Hstep.
  pose proof (tracked_step parseFloat t f f' e Htr Hstep) as Htr'.
  destruct e as [query|id|rid r|i]; cbn [Geocode.step] in Hstep.
  - injection Hstep as <-. split.
    + split; [exact Htr'|]. intros p Hp. destruct (Hprev p Hp) as [Hpl Hdue].
      split; [lia|].
      destruct (Nat.ltb_spec (String.length query) 3) as [Hlt|Hge].
      * rewrite (geocodeCity_short t query f Hlt). exact Hdue.
      * rewrite (geocodeCity_reschedules t query f Htr Hge). cbn.
        intros tm [<-|[]]. cbn. lia.
    + destruct (Nat.ltb_spec (String.length query) 3) as [Hlt|Hge].
      * now rewrite (geocodeCity_short t query f Hlt).
      * now rewrite (geocodeCity_reschedules t query f Htr Hge).
  - destruct (findTimer id f) as [tm|] eqn:Hfind; [|discriminate].
    destruct (N.leb_spec (deadline tm) t) as [Hdue|]; [|discriminate].
    injection Hstep as <-.
    pose proof (findTimer_In id f tm Hfind) as [Hin _].
    split; [|split].
    + destruct prev as [p|]; [|exact I].
      destruct (Hprev p eq_refl) as [_ Hd]. specialize (Hd tm Hin). lia.
    + split; [exact Htr'|]. intros p Hp. injection Hp as <-.
      split; [lia|]. cbn. rewrite (tracked_fired id f tm Htr Hfind).
      intros tm' [].
    + cbn. rewrite length_app. cbn. lia.
  - destruct (findRequest rid f); [|discriminate].
    injection Hstep as <-. split.
    + split; [exact Htr'|]. intros p Hp. destruct (Hprev p Hp) as [Hpl Hdue].
      split; [lia|]. destruct r; exact Hdue.
    + destruct r; reflexivity.
  - destruct (nth_error (suggestions f) i); [|discriminate].
    injection Hstep as <-. split; [|reflexivity].
    split; [exact Htr'|]. intros p Hp. destruct (Hprev p Hp) as [Hpl Hdue].
    split; [lia|exact Hdue].
Qed.

Lemma rateInv_run (es : list (N * event)) (prev : option N) (last : N)
    (f f' : Field) :
  rateInv prev last f -> run last f es = Some f' ->
  apart prev (callTimes es) /\
  List.length (calls f') = List.length (calls f) + List.length (callTimes es).
Proof.
  revert prev last f. induction es as [|[t e] rest IH]; intros prev last f Hinv Hrun.
  - injection Hrun as <-. cbn. split; [exact I|lia].
  - cbn [Geocode.run] in Hrun.
    destruct (N.leb_spec last t) as [Hle|]; [|discriminate].
    destruct (step t f e) as [f1|] eqn:Hstep; [|discriminate].
    pose proof (rateInv_step prev last t f f1 e Hinv Hle Hstep) as H1.
    destruct e as [query|id|rid r|i]; cbn [callTimes apart].
    + destruct H1 as [Hinv1 Hlen]. destruct (IH _ _ _ Hinv1 Hrun) as [Ha Hl].
      split; [exact Ha|lia].
    + destruct H1 as [Hgap [Hinv1 Hlen]].
      destruct (IH _ _ _ Hinv1 Hrun) as [Ha Hl].
      split; [split; assumption|]. cbn [List.length]. lia.
    + destruct H1 as [Hinv1 Hlen]. destruct (IH _ _ _ Hinv1 Hrun) as [Ha Hl].
      split; [exact Ha|lia].
    + destruct H1 as [Hinv1 Hlen]. destruct (IH _ _ _ Hinv1 Hrun) as [Ha Hl].
      split; [exact Ha|lia].
Qed.

(** Whatever is typed into a search field, and whenever its timeouts
    fire and its responses arrive, two requests of the field are never
    sent less than one debounce interval (400 ms) apart: along every trace
    that runs from the state at mount, each timeout that fires sends one
    request, and it fires 400 ms or more after the one before. *)
Theorem request_spacing (history : list (N * event)) (f : Field) :
  run 0 init history = Some f ->
  apart None (callTimes history) /\
  List.length (calls f) = List.length (callTimes history).
Proof.
  intros Hrun.
  assert (Hinv : rateInv None 0 init).
  { split; [exact tracked_init|]. intros p Hp. discriminate Hp. }
  exact (rateInv_run history None 0%N init f Hinv Hrun).
Qed.

(** ** Which queries are sent *)

Lemma queued_step (R : string -> Prop) (t : N) (f f' : Field) (e : event) :
  (forall q, In q (queued f) -> R q) ->
  (forall query, e = Key query -> 3 <= String.length query -> R query) ->
  step t f e = Some f' ->
  forall q, In q (queued f') -> R q.
Proof.
  unfold queued. intros Hq Hkey Hstep q Hin.
  destruct e as [query|id|rid r|i]; cbn [Geocode.step] in Hstep.
  - injection Hstep as <-. unfold geocodeCity in Hin.
    destruct (Nat.ltb_spec (String.length query) 3) as [Hlt|Hge].
    + now apply Hq.
    + apply in_app_or in Hin as [Hin|Hin].
      * apply Hq, in_or_app. left.
        destruct (timerRef f); exact Hin.
      * assert (Hsub : forall ts, In q (map callback_query (ts ++ [{|
                  timer_id := next_timer f; deadline := (t + DEBOUNCE)%N;
                  callback_query := query |}])) ->
                (forall tm, In tm ts -> In tm (timers f)) -> R q).
        { intros ts H Hts. rewrite map_app in H. apply in_app_or in H as [H|H].
          - apply in_map_iff in H as [tm [<- Htm]].
            apply Hq, in_or_app. right. apply in_map. now apply Hts.
          - destruct H as [<-|[]]. now apply (Hkey query). }
        destruct (timerRef f) as [id|]; cbn in Hin.
        -- apply (Hsub _ Hin). intros tm Htm. now apply filter_In in Htm.
        -- apply (Hsub _ Hin). auto.
  - destruct (findTimer id f) as [tm|] eqn:Hfind; [|discriminate].
    destruct (deadline tm <=? t)%N; [|discriminate].
    injection Hstep as <-. cbn in Hin.
    pose proof (findTimer_In id f tm Hfind) as [Htm _].
    apply in_app_or in Hin as [Hin|Hin].
    + apply in_app_or in Hin as [Hin|[<-|[]]].
      * apply Hq, in_or_app. now left.
      * apply Hq, in_or_app. right. now apply in_map.
    + apply in_map_iff in Hin as [tm' [<- Htm']]. apply filter_In in Htm' as [Htm' _].
      apply Hq, in_or_app. right. now apply in_map.
  - destruct (findRequest rid f); [|discriminate].
    injection Hstep as <-. apply Hq. destruct r; exact Hin.
  - destruct (nth_error (suggestions f) i); [|discriminate].
    injection Hstep as <-. apply Hq. exact Hin.
Qed.

Lemma queued_run (R : string -> Prop) (es : list (N * event)) (last : N)
    (f f' : Field) :
  (forall q, In q (queued f) -> R q) ->
  (forall t query, In (t, Key query) es -> 3 <= String.length query -> R query) ->
  run last f es = Some f' ->
  forall q, In q (queued f') -> R q.
Proof.
  revert last f. induction es as [|[t e] rest IH]; intros last f Hq Hkey Hrun.
  - injection Hrun as <-. exact Hq.
  - cbn [Geocode.run] in Hrun.
    destruct (last <=? t)%N; [|discriminate].
    destruct (step t f e) as [f1|] eqn:Hstep; [|discriminate].
    apply (IH t f1); [| |exact Hrun].
    + apply (queued_step R t f f1 e Hq); [|exact Hstep].
      intros query -> Hlen. apply (Hkey t query); [now left|exact Hlen].
    + intros t' query Hin. apply (Hkey t' query). now right.
Qed.

Lemma dropTimer_le (id : positive) (ts : list Timer) :
  List.length (dropTimer id ts) <= List.length ts.
Proof. apply filter_length_le. Qed.

Lemma queued_count_step (t : N) (f f' : Field) (e : event) :
  step t f e = Some f' ->
  List.length (queued f') <= List.length (queued f) + longKeystrokes [(t, e)].
Proof.
  unfold queued. intros Hstep. rewrite !length_app, !length_map.
  destruct e as [query|id|rid r|i]; cbn [Geocode.step] in Hstep; cbn [longKeystrokes].
  - injection Hstep as <-. unfold geocodeCity.
    destruct (String.length query <? 3)%nat; cbn; [lia|].
    destruct (timerRef f) as [id|]; cbn; rewrite length_app; cbn; [|lia].
    pose proof (dropTimer_le id (timers f)). lia.
  - destruct (findTimer id f) as [tm|] eqn:Hfind; [|discriminate].
    destruct (deadline tm <=? t)%N; [|discriminate].
    injection Hstep as <-. cbn. rewrite length_app. cbn.
    pose proof (findTimer_In id f tm Hfind) as [Htm Hid].
    assert (Hlt : List.length (dropTimer id (timers f)) < List.length (timers f)).
    { unfold dropTimer. clear Hfind. induction (timers f) as [|tm' ts IH]; [destruct Htm|].
      cbn. destruct Htm as [->|Htm].
      - rewrite Hid, Pos.eqb_refl. cbn.
        pose proof (filter_length_le (fun t0 => negb (timer_id t0 =? id)%positive) ts).
        lia.
      - specialize (IH Htm). destruct (negb (timer_id tm' =? id)%positive); cbn; lia. }
    lia.
  - destruct (findRequest rid f); [|discriminate].
    injection Hstep as <-. destruct r; cbn; lia.
  - destruct (nth_error (suggestions f) i); [|discriminate].
    injection Hstep as <-. cbn. lia.
Qed.

Lemma queued_count_run (es : list (N * event)) (last : N) (f f' : Field) :
  run last f es = Some f' ->
  List.length (queued f') <= List.length (queued f) + longKeystrokes es.
Proof.
  revert last f. induction es as [|[t e] rest IH]; intros last f Hrun.
  - injection Hrun as <-. cbn. lia.
  - cbn [Geocode.run] in Hrun.
    destruct (last <=? t)%N; [|discriminate].
    destruct (step t f e) as [f1|] eqn:Hstep; [|discriminate].
    pose proof (queued_count_step t f f1 e Hstep) as H1.
    pose proof (IH t f1 Hrun) as H2.
    assert (Hk : longKeystrokes ((t, e) :: rest)
                 = longKeystrokes [(t, e)] + longKeystrokes rest).
    { destruct e; cbn; lia. }
    lia.
Qed.

(** A search field sends only what was typed into it: along every
    trace that runs from the state at mount, each query sent to the
    geocoding service has 3 characters or more and is the text some
    keystroke of the trace left in the field, and there are no more
    requests than keystrokes that left 3 characters or more. *)
Theorem only_typed_queries_sent (history : list (N * event)) (f : Field) :
  run 0 init history = Some f ->
  (forall q, In q (calls f) ->
     3 <= String.length q /\ exists t, In (t, Key q) history) /\
  List.length (calls f) <= longKeystrokes history.
Proof.
  intros Hrun. split.
  - intros q Hin.
    apply (queued_run (fun q => 3 <= String.length q /\ exists t, In (t, Key q) history)
             history 0%N init f); [| |exact Hrun|].
    + intros q' [].
    + intros t query Hkey Hlen. split; [exact Hlen|now exists t].
    + unfold queued. apply in_or_app. now left.
  - pose proof (queued_count_run history 0%N init f Hrun) as H.
    unfold queued in H. rewrite length_app in H. cbn in H. lia.
Qed.

(** ** The searching flag *)

Lemma searching_step (t : N) (f f' : Field) (e : event) :
  (searching f = true -> inflight f <> []) ->
  step t f e = Some f' ->
  searching f' = true -> inflight f' <> [].
Proof.
  intros Hinv Hstep.
  destruct e as [query|id|rid r|i]; cbn [Geocode.step] in Hstep.
  - injection Hstep as <-. unfold geocodeCity.
    destruct (String.length query <? 3)%nat; [exact Hinv|].
    destruct (timerRef f); exact Hinv.
  - destruct (findTimer id f) as [tm|]; [|discriminate].
    destruct (deadline tm <=? t)%N; [|discriminate].
    injection Hstep as <-. cbn. intros _ H. now apply app_eq_nil in H as [_ H].
  - destruct (findRequest rid f); [|discriminate].
    injection Hstep as <-. destruct r; cbn; discriminate.
  - destruct (nth_error (suggestions f) i); [|discriminate].
    injection Hstep as <-. exact Hinv.
Qed.

(** The Searching indicator of a field is shown only while a request
    of the field is awaiting its response: in every state a trace leads to
    from the state at mount, [searching] implies that some request is in
    flight. *)
Theorem searching_means_in_flight (history : list (N * event)) (f : Field) :
  run 0 init history = Some f ->
  searching f = true -> exists rq rest, inflight f = rq :: rest.
Proof.
  assert (H : forall es last f0 f1,
             (searching f0 = true -> inflight f0 <> []) ->
             run last f0 es = Some f1 ->
             searching f1 = true -> inflight f1 <> []).
  { induction es as [|[t e] rest IH]; intros last f0 f1 Hinv Hrun.
    - injection Hrun as <-. exact Hinv.
    - cbn [Geocode.run] in Hrun.
      destruct (last <=? t)%N; [|discriminate].
      destruct (step t f0 e) as [f2|] eqn:Hstep; [|discriminate].
      exact (IH t f2 f1 (searching_step t f0 f2 e Hinv Hstep) Hrun). }
  intros Hrun Hs.
  assert (Hne : inflight f <> []).
  { apply (H history 0%N init f); [cbn; discriminate|exact Hrun|exact Hs]. }
  destruct (inflight f) as [|rq rest]; [now destruct Hne|].
  now exists rq, rest.
Qed.

End RateTheory.

Section RateTraces.
Import Js Geocode Rate.

Lemma request_spacing_witness :
  apart None (callTimes burstWithShortQuery) /\
  List.length (calls afterBurstWithShortQuery)
  = List.length (callTimes burstWithShortQuery).
Proof.
  apply (request_spacing parseCoordinate burstWithShortQuery afterBurstWithShortQuery).
  vm_compute. reflexivity.
Defined.

Lemma only_typed_queries_sent_witness :
  (forall q, In q (calls afterBurstWithShortQuery) ->
     3 <= String.length q /\ exists t, In (t, Key q) burstWithShortQuery) /\
  List.length (calls afterBurstWithShortQuery) <= longKeystrokes burstWithShortQuery.
Proof.
  apply (only_typed_queries_sent parseCoordinate).
  vm_compute. reflexivity.
Defined.

Lemma searching_means_in_flight_witness :
  exists rq rest, inflight searchingAus = rq :: rest.
Proof.
  apply (searching_means_in_flight parseCoordinate
           [(0%N, Key "aus"); (400%N, TimerFires 1%positive)]).
  - vm_compute. reflexivity.
  - reflexivity.
Defined.

(** The converse does not hold: when the responses of two requests cross,
    the first one to arrive turns the indicator off while the other request
    is still in flight. *)
Example indicator_off_in_flight :
  exists f,
    Geocode.run parseCoordinate 0 init (firstn 5 crossingTrace) = Some f /\
    searching f = false /\
    inflight f = [{| request_id := 0; request_query := "aus" |}].
Proof.
  eexists. split; [vm_compute; reflexivity|]. split; reflexivity.
Qed.

End RateTraces.

Section OfflineSearchTheory.
Import Js Offline OfflineSelect.

(** ** What the search shows *)

Lemma prefix_spec (sub s : string) :
  String.prefix sub s = true <-> exists post, s = sub ++ post.
Proof.
  revert s. induction sub as [|a sub IH]; intros s.
  - split; [intros _; now exists s|intros _; now destruct s].
  - destruct s as [|b s]; cbn.
    + split; [discriminate|intros [post H]; discriminate H].
    + destruct (ascii_dec a b) as [->|Hne].
      * rewrite IH. split; intros [post H]; exists post.
        -- now rewrite H.
        -- now injection H.
      * split; [discriminate|]. intros [post H]. injection H as H _.
        now destruct Hne.
Qed.

Lemma includes_spec (s sub : string) :
  includes s sub = true <-> occursIn sub s.
Proof.
  unfold occursIn. induction s as [|a s IH].
  - cbn [includes]. rewrite orb_false_r, prefix_spec. split.
    + intros [post H]. now exists "", post.
    + intros [pre [post H]]. destruct pre; [now exists post|discriminate H].
  - cbn [includes]. rewrite orb_true_iff, prefix_spec, IH. split.
    + intros [[post H]|[pre [post H]]].
      * now exists "", post.
      * exists (String a pre), post. cbn. now rewrite H.
    + intros [pre [post H]]. destruct pre as [|b pre].
      * left. now exists post.
      * right. exists pre, post. now injection H.
Qed.

(** The offline search, for every query. A query shorter than 2 characters
    empties the suggestion list and leaves the searching flag as it is. A
    query of 2 characters or more shows at most 5 suggestions; each is a
    city of the built-in table whose name holds the query, letter case
    apart; when fewer than 5 are shown, every such city of the table is
    among them; and the searching flag is off. *)
Theorem offline_search_spec (query : string) (f : Field) :
  (String.length query < 2 ->
   geocodeCity query f = {| suggestions := []; searching := searching f |}) /\
  (2 <= String.length query ->
   List.length (suggestions (geocodeCity query f)) <= 5 /\
   (forall city, In city (suggestions (geocodeCity query f)) ->
      In city cityDatabase /\ matches query city) /\
   (List.length (suggestions (geocodeCity query f)) < 5 ->
    forall city, In city cityDatabase -> matches query city ->
      In city (suggestions (geocodeCity query f))) /\
   searching (geocodeCity query f) = false).
Proof.
  unfold geocodeCity, slice0.
  destruct (Nat.ltb_spec (String.length query) 2) as [Hlt|Hge].
  { split; [reflexivity|lia]. }
  split; [lia|]. intros _. cbn [suggestions searching].
  set (p := fun city => includes (toLowerCase (name city)) (toLowerCase query)).
  split; [|split; [|split]].
  - apply firstn_le_length.
  - intros city Hin.
    assert (Hf : In city (filter p cityDatabase)).
    { rewrite <- (firstn_skipn 5 (filter p cityDatabase)).
      apply in_or_app. now left. }
    apply filter_In in Hf as [Hdb Hp]. split; [exact Hdb|].
    now apply includes_spec.
  - intros Hshort city Hdb Hm.
    assert (Hall : List.length (filter p cityDatabase) <= 5).
    { rewrite length_firstn in Hshort. lia. }
    rewrite firstn_all2 by exact Hall.
    apply filter_In. split; [exact Hdb|]. now apply includes_spec.
  - reflexivity.
Qed.

(** ** Letter case *)

Lemma lower_upper (a : ascii) : lower (upper a) = lower a.
Proof. destruct a as [[] [] [] [] [] [] [] []]; reflexivity. Qed.

Lemma lower_lower (a : ascii) : lower (lower a) = lower a.
Proof. destruct a as [[] [] [] [] [] [] [] []]; reflexivity. Qed.

Lemma toLowerCase_toUpperCase (s : string) :
  toLowerCase (toUpperCase s) = toLowerCase s.
Proof. induction s as [|a s IH]; cbn; [reflexivity|]. now rewrite lower_upper, IH. Qed.

Lemma toLowerCase_idem (s : string) : toLowerCase (toLowerCase s) = toLowerCase s.
Proof. induction s as [|a s IH]; cbn; [reflexivity|]. now rewrite lower_lower, IH. Qed.

Lemma length_toUpperCase (s : string) :
  String.length (toUpperCase s) = String.length s.
Proof. induction s as [|a s IH]; cbn; [reflexivity|]. now rewrite IH. Qed.

Lemma length_toLowerCase (s : string) :
  String.length (toLowerCase s) = String.length s.
Proof. induction s as [|a s IH]; cbn; [reflexivity|]. now rewrite IH. Qed.

(** The offline search does not depend on the letter case of the
    query: the query in upper case, and the query in lower case, leave the
    field as the query itself does. *)
Theorem offline_search_ignores_case (query : string) (f : Field) :
  geocodeCity (toUpperCase query) f = geocodeCity query f /\
  geocodeCity (toLowerCase query) f = geocodeCity query f.
Proof.
  unfold geocodeCity.
  now rewrite length_toUpperCase, length_toLowerCase,
              toLowerCase_toUpperCase, toLowerCase_idem.
Qed.

(** ** The text of the city input after a pick *)

Lemma split_length (c : ascii) (s : string) :
  List.length (split c s) = S (count c s).
Proof.
  induction s as [|a s IH]; cbn; [reflexivity|].
  destruct (Ascii.eqb a c); cbn; [now rewrite IH|].
  destruct (split c s) as [|tok toks]; [discriminate IH|exact IH].
Qed.





(** A name with one comma at most is left whole. *)
Lemma cityText_whole (name : string) :
  count "," name <= 1 -> cityText name = name.
Proof.
  intros Hle. unfold cityText, slice0.
  pose proof (split_length "," name) as Hlen.
  rewrite firstn_all2 by lia. apply join_split.
Qed.


Section WithToString.

Variable numberToString : float -> string.

Local Abbreviation selectLocation := (OfflineSelect.selectLocation numberToString).

(** Picking a city of the built-in table fills the form with it: the
    city input shows the name of the city in full, the coordinate inputs
    show its coordinates, and the suggestion list is emptied. *)
Theorem offline_pick_fills_form (city : City) (l : Location) :
  In city cityDatabase ->
  cityInput (selectLocation city l) = name city /\
  latText (selectLocation city l) = numberToString (lat city) /\
  lonText (selectLocation city l) = numberToString (lon city) /\
  suggestions (field (selectLocation city l)) = [].
Proof.
  intros Hin. split; [|now repeat split]. cbn.
  apply cityText_whole.
  assert (Hall : forallb (fun c => (count "," (name c) <=? 1)%nat) cityDatabase = true)
    by (vm_compute; reflexivity).
  rewrite forallb_forall in Hall. apply Nat.leb_le. now apply Hall.
Qed.

End WithToString.

End OfflineSearchTheory.

Section OfflineSearchTraces.
Import Js Offline OfflineSelect.

Lemma offline_search_spec_witness :
  geocodeCity "t" (field startAtMount)
  = {| suggestions := []; searching := searching (field startAtMount) |} /\
  List.length (suggestions (geocodeCity "TX" (field startAtMount))) <= 5 /\
  (forall city, In city (suggestions (geocodeCity "TX" (field startAtMount))) ->
     In city cityDatabase /\ matches "TX" city) /\
  (List.length (suggestions (geocodeCity "TX" (field startAtMount))) < 5 ->
   forall city, In city cityDatabase -> matches "TX" city ->
     In city (suggestions (geocodeCity "TX" (field startAtMount)))) /\
  searching (geocodeCity "TX" (field startAtMount)) = false.
Proof.
  split.
  - apply (offline_search_spec "t" (field startAtMount)). cbn. lia.
  - apply (offline_search_spec "TX" (field startAtMount)). cbn. lia.
Defined.

Lemma offline_pick_fills_form_witness :
  cityInput (selectLocation Planner.showCoordinate
               {| name := "Austin, TX"; lat := 30.27; lon := (-97.74) |}
               startAtMount) = "Austin, TX" /\
  latText (selectLocation Planner.showCoordinate
             {| name := "Austin, TX"; lat := 30.27; lon := (-97.74) |}
             startAtMount)
  = "30.27" /\
  lonText (selectLocation Planner.showCoordinate
             {| name := "Austin, TX"; lat := 30.27; lon := (-97.74) |}
             startAtMount)
  = "-97.74" /\
  suggestions (field (selectLocation Planner.showCoordinate
                        {| name := "Austin, TX"; lat := 30.27; lon := (-97.74) |}
                        startAtMount)) = [].
Proof.
  apply (offline_pick_fills_form Planner.showCoordinate
           {| name := "Austin, TX"; lat := 30.27; lon := (-97.74) |} startAtMount).
  cbn. left. reflexivity.
Defined.

(** A name with two commas is cut, and a query is matched in any letter
    case. *)
Example city_text_of_long_name :
  cityText "Austin, Travis County, Texas" = "Austin, Travis County".
Proof. reflexivity. Qed.

Example offline_search_moab :
  map name (suggestions (geocodeCity "MOA" {| suggestions := []; searching := true |}))
  = ["Moab, UT"].
Proof. vm_compute. reflexivity. Qed.

End OfflineSearchTraces.

Section AmenitiesTheory.
Import Js Amenities.

Lemma replace_length (c d : ascii) (s : string) :
  String.length (replace c d s) = String.length s.
Proof.
  induction s as [|a s IH]; cbn; [reflexivity|].
  destruct (Ascii.eqb a c); cbn; [reflexivity|now rewrite IH].
Qed.

Lemma replace_count (c d : ascii) (s : string) :
  c <> d ->
  OfflineSelect.count c (replace c d s) = OfflineSelect.count c s - 1.
Proof.
  intros Hcd. induction s as [|a s IH]; cbn; [reflexivity|].
  destruct (Ascii.eqb a c) eqn:Hac; cbn.
  - destruct (Ascii.eqb_spec d c) as [->|_]; [now destruct Hcd|]. lia.
  - rewrite Hac. exact IH.
Qed.

Lemma replace_none (c d : ascii) (s : string) :
  OfflineSelect.count c s = 0 -> replace c d s = s.
Proof.
  induction s as [|a s IH]; cbn; [reflexivity|].
  destruct (Ascii.eqb a c); [discriminate|].
  intros H. now rewrite IH.
Qed.

Lemma replace_first (c d : ascii) (pre post : string) :
  OfflineSelect.count c pre = 0 ->
  replace c d (pre ++ String c post) = pre ++ String d post.
Proof.
  induction pre as [|a pre IH]; cbn.
  - intros _. now rewrite Ascii.eqb_refl.
  - destruct (Ascii.eqb a c); [discriminate|].
    intros H. now rewrite IH.
Qed.

(** An amenity is shown with its first underscore, and only its first,
    turned into a space. Each tag of the selection panel is its amenity
    itself when the amenity has no underscore; and when the amenity is
    [pre], an underscore, [post], with no underscore in [pre], the tag is
    [pre], a space, [post]: what comes after the first underscore is kept
    as it is, further underscores included. So each tag has the length of
    its amenity and one underscore fewer. *)
Theorem amenity_first_underscore (a : string) (l : list string) :
  Forall2 (fun amenity tag =>
             (underscores amenity = 0 -> tag = amenity) /\
             (forall pre post,
                amenity = pre ++ "_" ++ post -> underscores pre = 0 ->
                tag = pre ++ " " ++ post) /\
             String.length tag = String.length amenity /\
             underscores tag = underscores amenity - 1)
          (a :: l) (amenityTags (Some (a :: l))).
Proof.
  unfold amenityTags. cbn [List.length Nat.eqb]. rewrite app_nil_r.
  generalize (a :: l). intros l0. induction l0 as [|b l0 IH]; cbn [map].
  - constructor.
  - constructor; [|exact IH]. unfold underscores. split; [|split; [|split]].
    + apply replace_none.
    + intros pre post -> Hpre. now apply replace_first.
    + apply replace_length.
    + apply replace_count. discriminate.
Qed.

(** The popup of a marker and the selection panel show the same
    amenities: the text [formatAmenities] gives is the tags of the panel
    joined by ", ", be the list of amenities missing, empty or not. *)
Theorem amenities_agree (amenities : option (list string)) :
  formatAmenities amenities = join ", " (amenityTags amenities).
Proof.
  unfold formatAmenities, amenityTags.
  destruct amenities as [[|a l]|]; cbn [List.length Nat.eqb map app];
    [reflexivity| |reflexivity].
  now rewrite app_nil_r.
Qed.

Example amenity_two_underscores :
  formatAmenities (Some ["picnic_table_area"; "fire_ring"; "toilets"])
  = "picnic table_area, fire ring, toilets".
Proof. reflexivity. Qed.

End AmenitiesTheory.

Section DirectionsTheory.
Import Js Directions.

Lemma strictEq_spec (x : option string) (lit : string) :
  strictEq x lit = true <-> x = Some lit.
Proof.
  destruct x as [s|]; cbn.
  - rewrite String.eqb_eq. split; [now intros ->|now intros [= ->]].
  - split; discriminate.
Qed.

(** A step of the directions is shown with one icon at most, and with
    none exactly when it is a turn whose modifier is neither "left" nor
    "right" (a slight or sharp turn, a U-turn, or no modifier at all); a
    maneuver type outside the five the page knows, or a missing one, gets
    the plain arrow. *)
Theorem direction_icon_cases (dir : Direction) :
  List.length (directionIcon dir) <= 1 /\
  (directionIcon dir = [] <->
   maneuver_type dir = Some "turn" /\
   maneuver_modifier dir <> Some "left" /\
   maneuver_modifier dir <> Some "right") /\
  (includes ["turn"; "merge"; "fork"; "depart"; "arrive"] (maneuver_type dir) = false ->
   directionIcon dir = [Onward]).
Proof.
  unfold directionIcon, includes. cbn [existsb].
  destruct (strictEq (maneuver_type dir) "turn") eqn:Hturn.
  - apply strictEq_spec in Hturn. rewrite Hturn. cbn.
    destruct (strictEq (maneuver_modifier dir) "left") eqn:Hleft.
    + apply strictEq_spec in Hleft. rewrite Hleft. cbn.
      split; [lia|]. split; [|discriminate].
      split; [discriminate|]. intros [_ [H _]]. now destruct H.
    + destruct (strictEq (maneuver_modifier dir) "right") eqn:Hright.
      * apply strictEq_spec in Hright. cbn.
        split; [lia|]. split; [|discriminate].
        split; [discriminate|]. intros [_ [_ H]]. now destruct H.
      * cbn. split; [lia|]. split; [|discriminate].
        split; [|reflexivity]. intros _. split; [reflexivity|].
        split; intros H; apply strictEq_spec in H; congruence.
  - assert (Hnot : maneuver_type dir <> Some "turn").
    { intros H. apply strictEq_spec in H. congruence. }
    cbn [andb orb].
    destruct (strictEq (maneuver_type dir) "merge") eqn:Hmerge;
      [apply strictEq_spec in Hmerge; rewrite Hmerge; cbn;
       split; [lia|]; split; [|discriminate];
       split; [discriminate|]; intros [H _]; discriminate H|].
    destruct (strictEq (maneuver_type dir) "fork") eqn:Hfork;
      [apply strictEq_spec in Hfork; rewrite Hfork; cbn;
       split; [lia|]; split; [|discriminate];
       split; [discriminate|]; intros [H _]; discriminate H|].
    destruct (strictEq (maneuver_type dir) "depart") eqn:Hdepart;
      [apply strictEq_spec in Hdepart; rewrite Hdepart; cbn;
       split; [lia|]; split; [|discriminate];
       split; [discriminate|]; intros [H _]; discriminate H|].
    destruct (strictEq (maneuver_type dir) "arrive") eqn:Harrive;
      [apply strictEq_spec in Harrive; rewrite Harrive; cbn;
       split; [lia|]; split; [|discriminate];
       split; [discriminate|]; intros [H _]; discriminate H|].
    cbn. split; [lia|]. split; [|reflexivity].
    split; [discriminate|]. intros [H _]. now destruct Hnot.
Qed.

Example slight_turn_has_no_icon :
  directionIcon {| maneuver_type := Some "turn";
                   maneuver_modifier := Some "slight right";
                   ref := Some "US-285"; instruction := None |} = [].
Proof. reflexivity. Qed.

End DirectionsTheory.

Section ViewTheory.
Import Js Marker View.

Variable parseFloat : string -> float.
Variable numberToString : float -> string.

Local Abbreviation step := (Planner.step parseFloat numberToString).
Local Abbreviation run := (Planner.run parseFloat numberToString).
Local Abbreviation allPoints := (TripMap.allPoints parseFloat).
Local Abbreviation startMarker := (View.startMarker parseFloat).
Local Abbreviation endMarker := (View.endMarker parseFloat).

(** The bounds the map is fitted to hold every marker but the gold
    one: [allPoints] is made of the positions of the start marker, of the
    end marker and of the campsite markers, in this order; the straight
    line drawn when there is no route geometry lies within them; and so
    does the gold marker when the selected site is one of the nearby
    campsites of the plan. *)
Theorem bounds_cover_markers (p : TripMap.Props) :
  allPoints p = map position (startMarker p :: endMarker p :: campsiteMarkers p) /\
  (TripMap.geometryOf p = [] ->
   forall x, In x (TripMap.getRoutePositions parseFloat p) -> In x (allPoints p)) /\
  (forall site, TripMap.selectedCampsite p = Some site ->
     In site (TripMap.nearbySites p) ->
     exists m, selectedMarker p = Some m /\ In (position m) (allPoints p)).
Proof.
  split; [|split].
  - unfold TripMap.allPoints, campsiteMarkers. cbn [map app position].
    destruct (TripMap.tripPlan p) as [plan|]; [|reflexivity].
    destruct (nearby_campsites plan) as [sites|]; [|reflexivity].
    now rewrite map_map.
  - unfold TripMap.geometryOf, TripMap.getRoutePositions, TripMap.allPoints.
    intros Hgeo x Hin.
    destruct (TripMap.tripPlan p) as [plan|].
    + destruct (route_geometry plan) as [geometry|].
      * subst geometry. cbn in Hin. apply in_or_app. now left.
      * apply in_or_app. now left.
    + apply in_or_app. now left.
  - intros site Hsel Hin. unfold selectedMarker. rewrite Hsel.
    eexists. split; [reflexivity|]. cbn [position].
    unfold TripMap.allPoints. apply in_or_app. right.
    unfold TripMap.nearbySites in Hin.
    destruct (TripMap.tripPlan p) as [plan|]; [|destruct Hin].
    destruct (nearby_campsites plan) as [sites|]; [|destruct Hin].
    apply (in_map (fun s => (Site.lat s, Site.lon s))) in Hin. exact Hin.
Qed.

(** A click on a displayed site highlights it in the page and on the
    map at once: after the click the cards highlighted are those of the
    sites with the id of the clicked site, the card of the clicked site
    among them, and the map shows the gold marker at the position of the
    clicked site. *)
Theorem click_highlights (t : N) (a : Planner.App) (plan : TripPlan)
    (i : nat) (site : Site.t) :
  Planner.tripPlan a = Some plan ->
  nth_error (Planner.displayedSites plan) i = Some site ->
  exists a',
    step t a (Planner.ClickSite i) = Some a' /\
    (forall card, isSelected (Planner.selectedCampsite a') card = true
                  <-> Site.id card = Site.id site) /\
    cardClassName a' site = "campsite-card selected" /\
    suggestionClassName a' site = "campsite-suggestion selected" /\
    selectedMarker (tripMapProps a')
    = Some {| position := (Site.lat site, Site.lon site);
              icon := Val (createIcon "gold") |}.
Proof.
  intros Hplan Hnth. eexists. split.
  - cbn [Planner.step]. rewrite Hplan, Hnth. reflexivity.
  - unfold cardClassName, suggestionClassName. cbn.
    rewrite String.eqb_refl. repeat split.
    + intros H. apply String.eqb_eq in H. now symmetry.
    + intros H. apply String.eqb_eq. now symmetry.
Qed.

(** Picking a suggestion moves the end of the route it was searched
    for: when the text of the coordinates of the suggestion parses back to
    them, after the pick the marker of that end stands at the coordinates
    of the suggestion, which are among the bounds the map is fitted to; the
    city input shows the label of the suggestion, or its name when the
    label is empty; the suggestion list is empty; and the other end has not
    moved. *)
Theorem pick_moves_endpoint (t : N) (a : Planner.App) (w : Planner.which)
    (i : nat) (s : Geocode.Suggestion.t) :
  nth_error (Geocode.suggestions (Planner.search w a)) i = Some s ->
  parseFloat (numberToString (Geocode.Suggestion.lat s)) = Geocode.Suggestion.lat s ->
  parseFloat (numberToString (Geocode.Suggestion.lon s)) = Geocode.Suggestion.lon s ->
  exists a',
    step t a (Planner.Search w (Geocode.Pick i)) = Some a' /\
    endpoint parseFloat w (tripMapProps a')
    = (Geocode.Suggestion.lat s, Geocode.Suggestion.lon s) /\
    In (Geocode.Suggestion.lat s, Geocode.Suggestion.lon s)
       (allPoints (tripMapProps a')) /\
    cityOf w a' = pickedText s /\
    Geocode.suggestions (Planner.search w a') = [] /\
    endpoint parseFloat (Planner.other w) (tripMapProps a')
    = endpoint parseFloat (Planner.other w) (tripMapProps a).
Proof.
  intros Hnth Hlat Hlon. eexists. split.
  - cbn [Planner.step Geocode.step]. rewrite Hnth. reflexivity.
  - unfold TripMap.allPoints, endpoint, TripMap.start, TripMap.dest, pickedText.
    destruct w; cbn; rewrite Hlat, Hlon; repeat split; auto.
Qed.

(** Picking a suggestion does not call off the search of its field: the
    timeout pending and the requests in flight stay as they are, and when
    a request in flight then settles with results the suggestion list is
    shown again, filled with them, under the city input that shows the
    picked place. *)
Theorem pick_leaves_search_pending (t1 t2 : N) (a : Planner.App)
    (w : Planner.which) (i : nat) (s : Geocode.Suggestion.t)
    (rq : Geocode.Request) (data : list Geocode.Result.t) :
  nth_error (Geocode.suggestions (Planner.search w a)) i = Some s ->
  In rq (Geocode.inflight (Planner.search w a)) ->
  exists a1 a2,
    step t1 a (Planner.Search w (Geocode.Pick i)) = Some a1 /\
    Geocode.timers (Planner.search w a1) = Geocode.timers (Planner.search w a) /\
    Geocode.inflight (Planner.search w a1) = Geocode.inflight (Planner.search w a) /\
    step t2 a1 (Planner.Search w (Geocode.Settles (Geocode.request_id rq)
                                    (Geocode.Json data))) = Some a2 /\
    Geocode.suggestions (Planner.search w a2)
    = map (Geocode.toSuggestion parseFloat) data /\
    cityOf w a2 = pickedText s.
Proof.
  intros Hnth Hin.
  assert (Hfind : exists rq0, Geocode.findRequest (Geocode.request_id rq)
                                (Geocode.setSuggestions [] (Planner.search w a))
                              = Some rq0).
  { destruct (Geocode.findRequest (Geocode.request_id rq)
                (Geocode.setSuggestions [] (Planner.search w a))) as [rq0|] eqn:E;
      [now exists rq0|].
    unfold Geocode.findRequest in E. cbn in E.
    pose proof (find_none _ _ E rq Hin) as Hf. cbn in Hf.
    now rewrite Nat.eqb_refl in Hf. }
  destruct Hfind as [rq0 Hfind].
  set (fld := Geocode.setSuggestions [] (Planner.search w a)) in *.
  set (a1 := Planner.selectLocation numberToString w s (Planner.withSearch w fld a)).
  assert (Hs : Planner.search w a1 = fld) by (destruct w; reflexivity).
  exists a1.
  exists (Planner.withSearch w
            (Geocode.callbackResume parseFloat (Geocode.Json data)
               (Geocode.withInflight
                  (Geocode.dropRequest (Geocode.request_id rq) (Geocode.inflight fld))
                  fld)) a1).
  split; [|split; [|split; [|split; [|split]]]].
  - cbn [Planner.step Geocode.step]. rewrite Hnth. reflexivity.
  - now rewrite Hs.
  - now rewrite Hs.
  - cbn [Planner.step Geocode.step]. rewrite Hs, Hfind. reflexivity.
  - destruct w; reflexivity.
  - destruct w; reflexivity.
Qed.

(** ** Invariants of the plan request *)

Lemma plan_inv_step (t : N) (a a' : Planner.App) (e : Planner.event) :
  (Planner.loading a = true -> Planner.error a = None) ->
  (Planner.selectedCampsite a <> None -> Planner.tripPlan a <> None) ->
  step t a e = Some a' ->
  (Planner.loading a' = true -> Planner.error a' = None) /\
  (Planner.selectedCampsite a' <> None -> Planner.tripPlan a' <> None).
Proof.
  intros Hload Hsel Hstep.
  destruct e as [w ge|v|v| |r|i|]; cbn [Planner.step] in Hstep.
  - destruct (Geocode.step parseFloat t (Planner.search w a) ge) as [fld|];
      [|discriminate].
    destruct ge as [query|id|rid r|i].
    + injection Hstep as <-. destruct w; split; assumption.
    + injection Hstep as <-. destruct w; split; assumption.
    + injection Hstep as <-. destruct w; split; assumption.
    + destruct (nth_error (Geocode.suggestions (Planner.search w a)) i);
        [|discriminate].
      injection Hstep as <-. destruct w; split; assumption.
  - injection Hstep as <-. split; assumption.
  - injection Hstep as <-. split; assumption.
  - destruct (Planner.loading a); [discriminate|].
    injection Hstep as <-. cbn. split; [reflexivity|]. intros H. now destruct H.
  - destruct (Planner.loading a); [|discriminate].
    injection Hstep as <-. split; [destruct r; cbn; discriminate|].
    destruct r; cbn; [discriminate|exact Hsel|exact Hsel].
  - destruct (Planner.tripPlan a) as [plan|] eqn:Hplan; [|discriminate].
    destruct (nth_error (Planner.displayedSites plan) i); [|discriminate].
    injection Hstep as <-. cbn. split; [exact Hload|].
    intros _. rewrite Hplan. discriminate.
  - destruct (Planner.selectedCampsite a); [|discriminate].
    injection Hstep as <-. cbn. split; [exact Hload|]. intros H. now destruct H.
Qed.

Lemma plan_inv_run (es : list (N * Planner.event)) (last : N)
    (a a' : Planner.App) :
  (Planner.loading a = true -> Planner.error a = None) ->
  (Planner.selectedCampsite a <> None -> Planner.tripPlan a <> None) ->
  run last a es = Some a' ->
  (Planner.loading a' = true -> Planner.error a' = None) /\
  (Planner.selectedCampsite a' <> None -> Planner.tripPlan a' <> None).
Proof.
  revert last a. induction es as [|[t e] rest IH]; intros last a Hload Hsel Hrun.
  - injection Hrun as <-. split; assumption.
  - cbn [Planner.run] in Hrun.
    destruct (last <=? t)%N; [|discriminate].
    destruct (step t a e) as [a1|] eqn:Hstep; [|discriminate].
    destruct (plan_inv_step t a a1 e Hload Hsel Hstep) as [Hload1 Hsel1].
    exact (IH t a1 Hload1 Hsel1 Hrun).
Qed.

(** No error message is shown while a plan is being requested, and
    none is left once it has arrived: in every state a trace leads to from
    the state at mount, the error is unset while the loading flag is up,
    and a request that then settles with a plan stores the plan, lowers the
    flag and leaves the error unset; and a campsite is selected only when
    some plan is on the screen. *)
Theorem plan_state_invariants (history : list (N * Planner.event))
    (a : Planner.App) :
  run 0 Planner.init history = Some a ->
  (Planner.loading a = true -> Planner.error a = None) /\
  (forall t data a',
     step t a (Planner.PlanSettles (Planner.PlanOk data)) = Some a' ->
     Planner.tripPlan a' = Some data /\ Planner.error a' = None /\
     Planner.loading a' = false) /\
  (forall site, Planner.selectedCampsite a = Some site ->
     exists plan, Planner.tripPlan a = Some plan).
Proof.
  intros Hrun.
  destruct (plan_inv_run history 0%N Planner.init a) as [Hload Hsel];
    [reflexivity|intros H; now destruct H|exact Hrun|].
  split; [exact Hload|]. split.
  - intros t data a' Hstep. cbn [Planner.step] in Hstep.
    destruct (Planner.loading a) eqn:Hl; [|discriminate].
    injection Hstep as <-. cbn. repeat split. now apply Hload.
  - intros site Hs.
    destruct (Planner.tripPlan a) as [plan|]; [now exists plan|].
    destruct Hsel; [rewrite Hs; discriminate|reflexivity].
Qed.

End ViewTheory.

Section ViewTraces.
Import Js Marker View.

Lemma click_highlights_witness :
  exists a',
    Planner.step Planner.parseCoordinate Planner.showCoordinate 0
      (Planner.setTripPlan (Some planWithSuggestion) Planner.init)
      (Planner.ClickSite 0) = Some a' /\
    (forall card, isSelected (Planner.selectedCampsite a') card = true
                  <-> Site.id card = Site.id Planner.pineFlat) /\
    cardClassName a' Planner.pineFlat = "campsite-card selected" /\
    suggestionClassName a' Planner.pineFlat = "campsite-suggestion selected" /\
    selectedMarker (tripMapProps a')
    = Some {| position := (Site.lat Planner.pineFlat, Site.lon Planner.pineFlat);
              icon := Val (createIcon "gold") |}.
Proof.
  apply (click_highlights Planner.parseCoordinate Planner.showCoordinate 0%N
           (Planner.setTripPlan (Some planWithSuggestion) Planner.init)
           planWithSuggestion 0 Planner.pineFlat); reflexivity.
Defined.

(** The gold marker can lie outside the bounds the map is fitted to: the
    site a segment suggests need not be one of the nearby campsites. *)
Example gold_marker_outside_bounds :
  exists a' m,
    Planner.step Planner.parseCoordinate Planner.showCoordinate 0
      (Planner.setTripPlan (Some planWithSuggestion) Planner.init)
      (Planner.ClickSite 0) = Some a' /\
    selectedMarker (tripMapProps a') = Some m /\
    existsb (fun x => PrimFloat.eqb (fst x) (fst (position m))
                      && PrimFloat.eqb (snd x) (snd (position m)))
            (TripMap.allPoints Planner.parseCoordinate (tripMapProps a')) = false.
Proof.
  eexists. eexists. split; [reflexivity|]. split; [reflexivity|].
  vm_compute. reflexivity.
Qed.

Lemma pick_moves_endpoint_witness :
  exists a',
    Planner.step Planner.parseCoordinate Planner.showCoordinate 0
      austinSuggested (Planner.Search Planner.DestField (Geocode.Pick 0)) = Some a' /\
    endpoint Planner.parseCoordinate Planner.DestField (tripMapProps a')
    = (30.27, -97.74)%float /\
    In (30.27, -97.74)%float
       (TripMap.allPoints Planner.parseCoordinate (tripMapProps a')) /\
    cityOf Planner.DestField a' = "Austin, Texas" /\
    Geocode.suggestions (Planner.search Planner.DestField a') = [] /\
    endpoint Planner.parseCoordinate Planner.StartField (tripMapProps a')
    = endpoint Planner.parseCoordinate Planner.StartField (tripMapProps austinSuggested).
Proof.
  apply (pick_moves_endpoint Planner.parseCoordinate Planner.showCoordinate 0%N
           austinSuggested Planner.DestField 0
           (Geocode.toSuggestion Planner.parseCoordinate Geocode.austin));
    reflexivity.
Defined.

Lemma pick_leaves_search_pending_witness :
  exists a1 a2,
    Planner.step Planner.parseCoordinate Planner.showCoordinate 300
      austinShownWhileSearching
      (Planner.Search Planner.StartField (Geocode.Pick 0)) = Some a1 /\
    Geocode.timers (Planner.search Planner.StartField a1) = [] /\
    Geocode.inflight (Planner.search Planner.StartField a1)
    = [{| Geocode.request_id := 1; Geocode.request_query := "aust" |}] /\
    Planner.step Planner.parseCoordinate Planner.showCoordinate 900 a1
      (Planner.Search Planner.StartField
         (Geocode.Settles 1 (Geocode.Json [Geocode.austin; Geocode.denver])))
    = Some a2 /\
    Geocode.suggestions (Planner.search Planner.StartField a2)
    = map (Geocode.toSuggestion Planner.parseCoordinate)
          [Geocode.austin; Geocode.denver] /\
    cityOf Planner.StartField a2 = "Austin, Texas".
Proof.
  apply (pick_leaves_search_pending Planner.parseCoordinate Planner.showCoordinate
           300%N 900%N austinShownWhileSearching Planner.StartField 0
           (Geocode.toSuggestion Planner.parseCoordinate Geocode.austin)
           {| Geocode.request_id := 1; Geocode.request_query := "aust" |}
           [Geocode.austin; Geocode.denver]).
  - reflexivity.
  - cbn. left. reflexivity.
Defined.

Lemma plan_state_invariants_witness :
  (Planner.loading (Planner.planTripStart Planner.init) = true ->
   Planner.error (Planner.planTripStart Planner.init) = None) /\
  (forall t data a',
     Planner.step Planner.parseCoordinate Planner.showCoordinate t
       (Planner.planTripStart Planner.init)
       (Planner.PlanSettles (Planner.PlanOk data)) = Some a' ->
     Planner.tripPlan a' = Some data /\ Planner.error a' = None /\
     Planner.loading a' = false) /\
  (forall site,
     Planner.selectedCampsite (Planner.planTripStart Planner.init) = Some site ->
     exists plan, Planner.tripPlan (Planner.planTripStart Planner.init) = Some plan).
Proof.
  apply (plan_state_invariants Planner.parseCoordinate Planner.showCoordinate
           [(0%N, Planner.ClickPlan)]).
  reflexivity.
Defined.

End ViewTraces.

Section ProvenanceTheory.
Import Js View.

Variable parseFloat : string -> float.
Variable numberToString : float -> string.

Local Abbreviation step := (Planner.step parseFloat numberToString).
Local Abbreviation run := (Planner.run parseFloat numberToString).
Local Abbreviation returned := (View.returned parseFloat).
Local Abbreviation fromGeocoding := (View.fromGeocoding parseFloat numberToString).

(** The suggestions a field shows after an event are those it showed
    before, or the results of the response that has just arrived. *)
Lemma step_suggestions (t : N) (f f' : Geocode.Field) (e : Geocode.event) :
  Geocode.step parseFloat t f e = Some f' ->
  forall s, In s (Geocode.suggestions f') ->
    In s (Geocode.suggestions f) \/
    exists rid data r, e = Geocode.Settles rid (Geocode.Json data) /\
                       In r data /\ s = Geocode.toSuggestion parseFloat r.
Proof.
  intros Hstep s Hin.
  destruct e as [query|id|rid r|i]; cbn [Geocode.step] in Hstep.
  - injection Hstep as <-. unfold Geocode.geocodeCity in Hin.
    destruct (String.length query <? 3)%nat; [destruct Hin|].
    left. destruct (Geocode.timerRef f); exact Hin.
  - destruct (Geocode.findTimer id f) as [tm|]; [|discriminate].
    destruct (Geocode.deadline tm <=? t)%N; [|discriminate].
    injection Hstep as <-. left. exact Hin.
  - destruct (Geocode.findRequest rid f); [|discriminate].
    injection Hstep as <-. destruct r as [| |data]; cbn in Hin; try destruct Hin.
    right. apply in_map_iff in Hin as [r [<- Hr]]. now exists rid, data, r.
  - destruct (nth_error (Geocode.suggestions f) i); [|discriminate].
    injection Hstep as <-. destruct Hin.
Qed.

Lemma fromGeocoding_step (history : list (N * Planner.event)) (t : N)
    (a a' : Planner.App) (e : Planner.event) :
  In (t, e) history -> fromGeocoding history a -> step t a e = Some a' ->
  fromGeocoding history a'.
Proof.
  intros Hhist Hinv Hstep.
  assert (Hsame : Planner.startSearch a' = Planner.startSearch a ->
                  Planner.destSearch a' = Planner.destSearch a ->
                  (forall w, coordinateTexts w a' = coordinateTexts w a) ->
                  fromGeocoding history a').
  { intros H1 H2 H3 w. destruct (Hinv w) as [Hs Hc]. rewrite H3.
    split; [|exact Hc]. destruct w; cbn [Planner.search] in *.
    - now rewrite H1.
    - now rewrite H2. }
  destruct e as [w0 ge|v|v| |r|i|]; cbn [Planner.step] in Hstep.
  - destruct (Geocode.step parseFloat t (Planner.search w0 a) ge) as [fld|] eqn:Hg;
      [|discriminate].
    pose proof (step_suggestions t (Planner.search w0 a) fld ge Hg) as Hsug.
    assert (Hfld : forall s, In s (Geocode.suggestions fld) -> returned history w0 s).
    { intros s Hin. destruct (Hsug s Hin) as [Hold|[rid [data [r [-> [Hr ->]]]]]].
      - now apply (Hinv w0).
      - now exists t, rid, data, r. }
    assert (Hwith : forall w,
              (forall s, In s (Geocode.suggestions
                                 (Planner.search w (Planner.withSearch w0 fld a))) ->
                 returned history w s)).
    { intros w s. destruct w, w0; cbn [Planner.search Planner.withSearch
                                       Planner.startSearch Planner.destSearch];
        solve [apply Hfld | apply (Hinv Planner.StartField)
               | apply (Hinv Planner.DestField)]. }
    destruct ge as [query|id|rid r|i].
    + injection Hstep as <-. intros w. split.
      * intros s Hin. apply (Hwith w). destruct w, w0; exact Hin.
      * destruct (Hinv w) as [_ Hc]. destruct w, w0; exact Hc.
    + injection Hstep as <-. intros w. split; [apply Hwith|].
      destruct (Hinv w) as [_ Hc]. destruct w, w0; exact Hc.
    + injection Hstep as <-. intros w. split; [apply Hwith|].
      destruct (Hinv w) as [_ Hc]. destruct w, w0; exact Hc.
    + destruct (nth_error (Geocode.suggestions (Planner.search w0 a)) i) as [s0|] eqn:Hnth;
        [|discriminate].
      injection Hstep as <-.
      assert (Hret : returned history w0 s0).
      { apply (Hinv w0). exact (nth_error_In _ _ Hnth). }
      intros w. split.
      * intros s Hin. apply (Hwith w). destruct w, w0; exact Hin.
      * destruct (Hinv w) as [_ Hc].
        destruct w, w0; cbn;
          solve [exact Hc | right; exists s0; split; [exact Hret|reflexivity]].
  - injection Hstep as <-. apply Hsame; [reflexivity|reflexivity|now intros []].
  - injection Hstep as <-. apply Hsame; [reflexivity|reflexivity|now intros []].
  - destruct (Planner.loading a); [discriminate|].
    injection Hstep as <-. apply Hsame; [reflexivity|reflexivity|now intros []].
  - destruct (Planner.loading a); [|discriminate].
    injection Hstep as <-.
    apply Hsame; [now destruct r|now destruct r|intros []; now destruct r].
  - destruct (Planner.tripPlan a) as [plan|]; [|discriminate].
    destruct (nth_error (Planner.displayedSites plan) i); [|discriminate].
    injection Hstep as <-. apply Hsame; [reflexivity|reflexivity|now intros []].
  - destruct (Planner.selectedCampsite a); [|discriminate].
    injection Hstep as <-. apply Hsame; [reflexivity|reflexivity|now intros []].
Qed.

Lemma fromGeocoding_run (history es : list (N * Planner.event)) (last : N)
    (a a' : Planner.App) :
  (forall x, In x es -> In x history) ->
  fromGeocoding history a -> run last a es = Some a' ->
  fromGeocoding history a'.
Proof.
  revert last a. induction es as [|[t e] rest IH]; intros last a Hsub Hinv Hrun.
  - injection Hrun as <-. exact Hinv.
  - cbn [Planner.run] in Hrun.
    destruct (last <=? t)%N; [|discriminate].
    destruct (step t a e) as [a1|] eqn:Hstep; [|discriminate].
    apply (IH t a1); [| |exact Hrun].
    + intros x Hx. apply Hsub. now right.
    + apply (fromGeocoding_step history t a a1 e); [|exact Hinv|exact Hstep].
      apply Hsub. now left.
Qed.

(** What the form holds comes from the geocoding service. Along every
    trace that runs from the state at mount, each suggestion a field shows
    was made from a result of a response that arrived for that field, and
    the coordinates of each end of the route are those at mount or the
    text of the coordinates of such a suggestion: nothing else writes
    them. *)
Theorem endpoints_come_from_geocoding (history : list (N * Planner.event))
    (a : Planner.App) (w : Planner.which) :
  run 0 Planner.init history = Some a ->
  (forall s, In s (Geocode.suggestions (Planner.search w a)) ->
     returned history w s) /\
  (coordinateTexts w a = coordinateTexts w Planner.init \/
   exists s, returned history w s /\
             coordinateTexts w a
             = (numberToString (Geocode.Suggestion.lat s),
                numberToString (Geocode.Suggestion.lon s))).
Proof.
  intros Hrun.
  apply (fromGeocoding_run history history 0%N Planner.init a); [auto| |exact Hrun].
  intros w'. split.
  - destruct w'; intros s [].
  - now left.
Qed.

End ProvenanceTheory.

Section ProvenanceTraces.
Import Js View.

Lemma endpoints_come_from_geocoding_witness :
  exists a,
    Planner.run Planner.parseCoordinate Planner.showCoordinate 0 Planner.init
      denverPickedTrace = Some a /\
    (forall s, In s (Geocode.suggestions (Planner.search Planner.StartField a)) ->
       returned Planner.parseCoordinate denverPickedTrace Planner.StartField s) /\
    (coordinateTexts Planner.StartField a
     = coordinateTexts Planner.StartField Planner.init \/
     exists s,
       returned Planner.parseCoordinate denverPickedTrace Planner.StartField s /\
       coordinateTexts Planner.StartField a
       = (Planner.showCoordinate (Geocode.Suggestion.lat s),
          Planner.showCoordinate (Geocode.Suggestion.lon s))).
Proof.
  exists denverPicked.
  assert (Hrun : Planner.run Planner.parseCoordinate Planner.showCoordinate 0
                   Planner.init denverPickedTrace = Some denverPicked)
    by (vm_compute; reflexivity).
  split; [exact Hrun|].
  exact (endpoints_come_from_geocoding Planner.parseCoordinate
           Planner.showCoordinate denverPickedTrace denverPicked
           Planner.StartField Hrun).
Defined.

(** After that trace the start of the route is at the coordinates the
    service returned for Denver. *)
Example denver_picked_coordinates :
  coordinateTexts Planner.StartField denverPicked = ("39.74", "-104.99") /\
  cityOf Planner.StartField denverPicked = "Denver, Colorado".
Proof. split; reflexivity. Qed.

End ProvenanceTraces.
